(** * Football Match Importance API: a shallow embedding of [app.py]

    The service answers [GET /matchinfo] by fetching league standings from an
    upstream provider ([get_standings]), resolving two team names
    ([find_team]) and classifying the fixture ([match_importance]).

    Modelling conventions.
    - Python [int] is [Z].
    - Python [float] is IEEE-754 binary64.  A finite float is represented by
      the rational number it denotes, and every float operation is the exact
      rational operation followed by [RN], rounding to the nearest binary64
      value with ties to even.  Non-finite floats do not arise on the
      integer-valued JSON documents modelled here.
    - Python [str] is [string]; [str.lower] is [lower] below.
    - A [dict] is an association list in insertion order with unique keys.
    - Exceptions are the [Err] branch of [result]. *)

From Stdlib Require Import ZArith QArith Qround Qabs Qpower Lqa Lia.
From Stdlib Require Import Bool List String Ascii DecimalString.
From Stdlib Require Import Floats.PrimFloat Floats.SpecFloat Floats.FloatOps.
From Stdlib Require Import Numbers.Cyclic.Int63.Uint63.
Import ListNotations.

Local Open Scope Z_scope.

(** ** Binary64 arithmetic *)

Module Float.

Local Open Scope Q_scope.

Definition Qltb (x y : Q) : bool := negb (Qle_bool y x).

(** [round(x)] of Python 3 on a float: nearest integer, ties to even. *)
Definition py_round (x : Q) : Z :=
  let f := Qfloor x in
  let r := x - inject_Z f in
  if Qltb r (1 # 2) then f
  else if Qltb (1 # 2) r then (f + 1)%Z
  else if Z.even f then f else (f + 1)%Z.

(** [floor (log2 q)] for [q > 0]. *)
Definition ilog2 (q : Q) : Z :=
  let d := (Z.log2 (Qnum q) - Z.log2 (Zpos (Qden q)))%Z in
  if Qle_bool (2 ^ d) q then d else (d - 1)%Z.

(** Exponent of the unit in the last place of the binade holding [q > 0]:
    53 significant bits, subnormals below [2^-1022]. *)
Definition ulp_exp (q : Q) : Z := Z.max (ilog2 q - 52) (-1074).

Definition RN_pos (q : Q) : Q :=
  let u := ulp_exp q in inject_Z (py_round (q / 2 ^ u)) * 2 ^ u.

(** Round to nearest binary64, ties to even (no overflow check). *)
Definition RN (x : Q) : Q :=
  match x ?= 0 with
  | Eq => 0
  | Gt => RN_pos x
  | Lt => - RN_pos (- x)
  end.

(** A magnitude whose rounding is far from overflowing. *)
Definition huge : Q := 2 ^ 1023.

(** A rounded result of magnitude [2^1024] or more is not a finite float. *)
Definition overflows (r : Q) : bool := Qle_bool (2 ^ 1024) (Qabs r).

(** [float(n)] for an [int] of moderate size, and the float operators. *)
Definition float_of_int (n : Z) : Q := RN (inject_Z n).
Definition fmul (x y : Q) : Q := RN (x * y).
Definition fdiv (x y : Q) : Q := RN (x / y).
(** [a / b] on two [int]s, [b <> 0]: the correctly rounded quotient. *)
Definition int_truediv (a b : Z) : Q := RN (inject_Z a / inject_Z b).

(** The rational denoted by a hardware float, to compare [RN] with the
    binary64 arithmetic of the kernel. *)
Definition Q_of_float (f : float) : option Q :=
  match Prim2SF f with
  | S754_zero _ => Some 0
  | S754_finite s m e =>
      Some ((if s then - inject_Z (Zpos m) else inject_Z (Zpos m)) * 2 ^ e)
  | _ => None
  end.

Definition agrees (f : float) (q : Q) : bool :=
  match Q_of_float f with
  | Some x => Qeq_bool x q
  | None => false
  end.

Definition prim_of_Z (n : Z) : float := PrimFloat.of_uint63 (Uint63.of_Z n).

(** The float literals of the source. *)
Definition lit_0_33 : Q := RN (33 # 100).
Definition lit_0_66 : Q := RN (66 # 100).
Definition lit_0_2 : Q := RN (2 # 10).

End Float.

Import Float.

(** ** The importance classifier *)

Local Open Scope string_scope.
Local Open Scope Z_scope.

Definition stage_of (progress : Q) : string :=
  if Qltb progress lit_0_33 then "early season"
  else if Qltb progress lit_0_66 then "mid-season"
  else "end of the season".

(** [pos > total_teams / 2] and [pos < total_teams / 2]: an [int] compared
    with a float, which Python does exactly.  [total_teams] is the length of
    the upstream list, so its conversion to a float is finite. *)
Definition gt_half (pos total_teams : Z) : bool :=
  Qltb (int_truediv total_teams 2) (inject_Z pos).
Definition lt_half (pos total_teams : Z) : bool :=
  Qltb (inject_Z pos) (int_truediv total_teams 2).

Definition match_importance (pos1 pos2 total_teams : Z) (progress : Q)
  : string :=
  let stage := stage_of progress in
  let top_zone :=
    Z.max 3 (py_round (fmul (float_of_int total_teams) lit_0_2)) in
  let bottom_zone :=
    Z.max 3 (py_round (fmul (float_of_int total_teams) lit_0_2)) in
  let top_teams := (pos1 <=? top_zone) && (pos2 <=? top_zone) in
  let bottom_teams :=
    (pos1 >? total_teams - bottom_zone)
    && (pos2 >? total_teams - bottom_zone) in
  if top_teams then " Top clash (" ++ stage ++ ")"
  else if bottom_teams then " Relegation battle (" ++ stage ++ ")"
  else if ((pos1 <=? top_zone) && gt_half pos2 total_teams)
          || ((pos2 <=? top_zone) && gt_half pos1 total_teams)
  then " Important for top team (" ++ stage ++ ")"
  else if ((pos1 >? total_teams - bottom_zone) && lt_half pos2 total_teams)
          || ((pos2 >? total_teams - bottom_zone) && lt_half pos1 total_teams)
  then " Important for bottom team (" ++ stage ++ ")"
  else " Regular match (" ++ stage ++ ")".

(** The width [max(3, round(total_teams * 0.2))] of the two zones. *)
Definition zone_size (total_teams : Z) : Z :=
  Z.max 3 (py_round (fmul (float_of_int total_teams) lit_0_2)).

(** ** The classification as the specification words it (section 4.4) *)

Inductive label : Type :=
| TopClash
| RelegationBattle
| ImportantForTopTeam
| ImportantForBottomTeam
| RegularMatch.

Definition label_text (l : label) : string :=
  match l with
  | TopClash => "Top clash"
  | RelegationBattle => "Relegation battle"
  | ImportantForTopTeam => "Important for top team"
  | ImportantForBottomTeam => "Important for bottom team"
  | RegularMatch => "Regular match"
  end.

(** Ordered checks, first match wins; "exactly one position ... and the
    other ..." is spelled out for both orders of the two positions. *)
Definition spec_classify (zoneSize pos1 pos2 totalTeams : Z) : label :=
  let top p := p <=? zoneSize in
  let bottom p := p >? totalTeams - zoneSize in
  if top pos1 && top pos2 then TopClash
  else if bottom pos1 && bottom pos2 then RelegationBattle
  else if (top pos1 && negb (top pos2) && gt_half pos2 totalTeams)
          || (top pos2 && negb (top pos1) && gt_half pos1 totalTeams)
  then ImportantForTopTeam
  else if (bottom pos1 && negb (bottom pos2) && lt_half pos2 totalTeams)
          || (bottom pos2 && negb (bottom pos1) && lt_half pos1 totalTeams)
  then ImportantForBottomTeam
  else RegularMatch.

Definition spec_importance (pos1 pos2 totalTeams : Z) (progress : Q) : string :=
  let zoneSize :=
    Z.max 3 (py_round (fmul (float_of_int totalTeams) lit_0_2)) in
  label_text (spec_classify zoneSize pos1 pos2 totalTeams)
    ++ " (" ++ stage_of progress ++ ")".

(** The same classification in integer arithmetic: a fifth of the league
    rounded to the nearest integer, and halves compared without division. *)
Definition classify_exact (pos1 pos2 totalTeams : Z) : label :=
  let zoneSize := Z.max 3 ((totalTeams + 2) / 5) in
  let top p := p <=? zoneSize in
  let bottom p := totalTeams - zoneSize <? p in
  let above_half p := totalTeams <? 2 * p in
  let below_half p := 2 * p <? totalTeams in
  if top pos1 && top pos2 then TopClash
  else if bottom pos1 && bottom pos2 then RelegationBattle
  else if (top pos1 && negb (top pos2) && above_half pos2)
          || (top pos2 && negb (top pos1) && above_half pos1)
  then ImportantForTopTeam
  else if (bottom pos1 && negb (bottom pos2) && below_half pos2)
          || (bottom pos2 && negb (bottom pos1) && below_half pos1)
  then ImportantForBottomTeam
  else RegularMatch.

(** ** Exceptions and JSON values *)

Inductive exn : Type :=
| Exception (msg : string)          (* the explicit [raise Exception(...)] *)
| RequestException (msg : string)   (* raised inside [requests.get] *)
| JSONDecodeError (msg : string)    (* raised inside [response.json()] *)
| KeyError (key : string)
| KeyError_int (key : Z)
| IndexError
| TypeError
| AttributeError
| ZeroDivisionError
| OverflowError.

Inductive result (A : Type) : Type :=
| Ok (a : A)
| Err (e : exn).
Arguments Ok {A} a.
Arguments Err {A} e.

Definition bind {A B : Type} (c : result A) (k : A -> result B) : result B :=
  match c with
  | Ok a => k a
  | Err e => Err e
  end.

Notation "x <- c ;; k" := (bind c (fun x => k))
  (at level 61, c at next level, right associativity).

Set Warnings "-register-all".

(** A parsed JSON document, as [response.json()] returns it.  Numbers are
    integers, as the provider sends them for positions, games and points. *)
Inductive json : Type :=
| JNull
| JBool (b : bool)
| JInt (n : Z)
| JStr (s : string)
| JArr (items : list json)
| JObj (members : list (string * json)).   (* the items of the dict *)

Fixpoint assoc {V : Type} (key : string) (members : list (string * V)) : option V :=
  match members with
  | [] => None
  | (k, v) :: rest => if String.eqb key k then Some v else assoc key rest
  end.

(** [x[key]] with a string key. *)
Definition getitem (x : json) (key : string) : result json :=
  match x with
  | JObj members =>
      match assoc key members with
      | Some v => Ok v
      | None => Err (KeyError key)
      end
  | _ => Err TypeError
  end.

(** [x[0]]. *)
Definition getitem_0 (x : json) : result json :=
  match x with
  | JArr [] => Err IndexError
  | JArr (v :: _) => Ok v
  | JObj _ => Err (KeyError_int 0)
  | JStr EmptyString => Err IndexError
  | JStr (String c _) => Ok (JStr (String c EmptyString))
  | _ => Err TypeError
  end.

(** [len(x)]. *)
Definition py_len (x : json) : result Z :=
  match x with
  | JArr items => Ok (Z.of_nat (List.length items))
  | JObj members => Ok (Z.of_nat (List.length members))
  | JStr s => Ok (Z.of_nat (String.length s))
  | _ => Err TypeError
  end.

Fixpoint chars (s : string) : list json :=
  match s with
  | EmptyString => []
  | String c rest => JStr (String c EmptyString) :: chars rest
  end.

(** The items [for team in x] runs over. *)
Definition py_iter (x : json) : result (list json) :=
  match x with
  | JArr items => Ok items
  | JObj members => Ok (map (fun kv => JStr (fst kv)) members)
  | JStr s => Ok (chars s)
  | _ => Err TypeError
  end.

(** A value used as a number: [int], or [bool] (a subclass of [int]). *)
Definition as_int (v : json) : result Z :=
  match v with
  | JInt n => Ok n
  | JBool b => Ok (if b then 1 else 0)
  | _ => Err TypeError
  end.

(** [a / b] on two [int]s. *)
Definition py_truediv (a b : Z) : result Q :=
  if b =? 0 then Err ZeroDivisionError
  else let r := int_truediv a b in
       if overflows r then Err OverflowError else Ok r.

(** [x / m] with a float [x] and an [int] [m]. *)
Definition py_float_div_int (x : Q) (m : Z) : result Q :=
  let d := float_of_int m in
  if overflows d then Err OverflowError
  else if Qeq_bool d 0 then Err ZeroDivisionError
  else Ok (fdiv x d).

(** [str(n)] for an [int]. *)
Definition str_int (n : Z) : string := NilZero.string_of_int (Z.to_int n).

(** [f"{x:.1f}"]: the decimal with one fractional digit nearest to [x]; a
    product that left the float range prints as an infinity. *)
Definition format_1f (x : Q) : string :=
  let t := Z.abs (py_round (x * 10)%Q) in
  (if Qltb x 0 then "-" else "")
    ++ (if overflows x then "inf"
        else str_int (t / 10) ++ "." ++ str_int (t mod 10)).

(** ** The standings table *)

Record entry : Type := {
  position : json;
  played : json;
  points : json
}.

(** A [dict] keyed by team name, in insertion order. *)
Definition table : Type := list (string * entry).

(** [d[k] = v]: an existing key keeps its place and takes the new value. *)
Fixpoint dict_set (k : string) (v : entry) (d : table) : table :=
  match d with
  | [] => [(k, v)]
  | (k', v') :: rest =>
      if String.eqb k k' then (k, v) :: rest else (k', v') :: dict_set k v rest
  end.

Definition keys (d : table) : list string := map fst d.

(** [name in t] on two strings. *)
Fixpoint contains (name t : string) : bool :=
  if prefix name t then true
  else match t with
       | EmptyString => false
       | String _ rest => contains name rest
       end.

(** What [requests.get] does for one call. *)
Inductive http_result : Type :=
| ConnectionFailed (msg : string)
| Response (status_code : Z) (text : string) (body : result json).

(** [response.ok]: false exactly for the 4xx and 5xx codes. *)
Definition ok (status_code : Z) : bool :=
  negb ((400 <=? status_code) && (status_code <? 600)).

Definition BASE_URL : string := "https://api.football-data.org/v4".

(** [sum(team["playedGames"] for team in standings)], from [acc]. *)
Fixpoint sum_played (rows : list json) (acc : Z) : result Z :=
  match rows with
  | [] => Ok acc
  | team :: rest =>
      v <- getitem team "playedGames" ;;
      n <- as_int v ;;
      sum_played rest (acc + n)
  end.

Record team_info : Type := {
  name : string;
  team_position : json;
  team_points : json
}.

Record match_result : Type := {
  league_code : string;
  team1_info : team_info;
  team2_info : team_info;
  importance : string;
  season_progress : string
}.

Inductive content : Type :=
| ErrorContent (e : exn)
    (* {"error": str(e)} *)
| NotFoundContent (error : string) (available_teams : list string)
    (* {"error": ..., "available_teams": [...]} *)
| MatchContent (r : match_result).

Record response : Type := {
  status : Z;
  body_content : content
}.

(** [not t] on the result of [find_team]: [None] and [""] are falsy. *)
Definition falsy (t : option string) : bool :=
  match t with
  | None => true
  | Some EmptyString => true
  | Some _ => false
  end.

Section Service.

(** [str.lower], the value of the [API_TOKEN] environment variable, and the
    behaviour of [requests.get] on a URL with an [X-Auth-Token] header. *)
Variable lower : string -> string.
Variable API_TOKEN : option string.
Variable requests_get : string -> option string -> http_result.

(** [v.lower()]: only strings have the method. *)
Definition str_lower (v : json) : result string :=
  match v with
  | JStr s => Ok (lower s)
  | _ => Err AttributeError
  end.

(** The dict comprehension of [get_standings], adding to [acc]. *)
Fixpoint build_table (rows : list json) (acc : table) : result table :=
  match rows with
  | [] => Ok acc
  | team :: rest =>
      t <- getitem team "team" ;;
      nm <- getitem t "name" ;;
      key <- str_lower nm ;;
      pos <- getitem team "position" ;;
      pl <- getitem team "playedGames" ;;
      pts <- getitem team "points" ;;
      build_table rest
        (dict_set key {| position := pos; played := pl; points := pts |} acc)
  end.

Definition get_standings (competition_code : string)
  : result (table * Z * Q) :=
  let url := BASE_URL ++ "/competitions/" ++ competition_code ++ "/standings" in
  match requests_get url API_TOKEN with
  | ConnectionFailed msg => Err (RequestException msg)
  | Response status_code text body =>
      if negb (ok status_code) then
        Err (Exception ("API request failed: " ++ str_int status_code
                          ++ " - " ++ text))
      else
        data <- body ;;
        s <- getitem data "standings" ;;
        g <- getitem_0 s ;;
        standings <- getitem g "table" ;;
        total_teams <- py_len standings ;;
        rows <- py_iter standings ;;
        total_played <- sum_played rows 0 ;;
        avg_played <- py_truediv total_played total_teams ;;
        let total_games_per_team := (total_teams - 1) * 2 in
        progress <- py_float_div_int avg_played total_games_per_team ;;
        rows' <- py_iter standings ;;
        tbl <- build_table rows' [] ;;
        Ok (tbl, total_teams, progress)
  end.

Fixpoint first_match (name : string) (ks : list string) : option string :=
  match ks with
  | [] => None
  | t :: rest => if contains name t then Some t else first_match name rest
  end.

Definition find_team (name : string) (standings : table) : option string :=
  let name := lower name in
  first_match name (keys standings).

(** [standings[t]]. *)
Definition lookup (t : string) (standings : table) : result entry :=
  match assoc t standings with
  | Some e => Ok e
  | None => Err (KeyError t)
  end.

(** The handler of [GET /matchinfo].  [Err] is an exception that leaves the
    handler.  Every comparison of [match_importance] on a position that is not
    a number raises [TypeError], and each position is compared on every path. *)
Definition get_match_info (league team1 team2 : string) : result response :=
  match get_standings league with
  | Err e => Ok {| status := 400; body_content := ErrorContent e |}
  | Ok (standings, total_teams, progress) =>
      let t1 := find_team team1 standings in
      let t2 := find_team team2 standings in
      if falsy t1 || falsy t2 then
        Ok {| status := 404;
              body_content :=
                NotFoundContent "One or both teams were not found."
                                (keys standings) |}
      else
        match t1, t2 with
        | Some t1, Some t2 =>
            e1 <- lookup t1 standings ;;
            e2 <- lookup t2 standings ;;
            let pos1 := position e1 in
            let pos2 := position e2 in
            let points1 := points e1 in
            let points2 := points e2 in
            p1 <- as_int pos1 ;;
            p2 <- as_int pos2 ;;
            let importance := match_importance p1 p2 total_teams progress in
            Ok {| status := 200;
                  body_content := MatchContent {|
                    league_code := league;
                    team1_info := {| name := t1; team_position := pos1;
                                     team_points := points1 |};
                    team2_info := {| name := t2; team_position := pos2;
                                     team_points := points2 |};
                    importance := importance;
                    season_progress :=
                      format_1f (fmul progress (float_of_int 100)) ++ "%" |} |}
        | _, _ => Err TypeError   (* not reached: neither is falsy *)
        end
  end.

End Service.

(** ASCII lower-casing: [str.lower] on strings of ASCII characters. *)
Definition lower_char (c : ascii) : ascii :=
  let n := nat_of_ascii c in
  if (65 <=? n)%nat && (n <=? 90)%nat then ascii_of_nat (n + 32) else c.

Fixpoint ascii_lower (s : string) : string :=
  match s with
  | EmptyString => EmptyString
  | String c rest => String (lower_char c) (ascii_lower rest)
  end.


(** ** Vocabulary of the statements *)

Definition standings_url (competition_code : string) : string :=
  BASE_URL ++ "/competitions/" ++ competition_code ++ "/standings".

(** The provider answers the standings request with a success status and a
    document whose [standings[0].table] is the list [rows]. *)
Definition upstream_rows (API_TOKEN : option string)
    (requests_get : string -> option string -> http_result)
    (competition_code : string) (rows : list json) : Prop :=
  exists status_code text data s g,
    requests_get (standings_url competition_code) API_TOKEN
      = Response status_code text (Ok data)
    /\ ok status_code = true
    /\ getitem data "standings" = Ok s
    /\ getitem_0 s = Ok g
    /\ getitem g "table" = Ok (JArr rows).

(** [row] has a numeric [playedGames] of value [v]. *)
Definition row_played (row : json) (v : Z) : Prop :=
  exists j, getitem row "playedGames" = Ok j /\ as_int j = Ok v.

(** [row] has a string [team.name] whose lower-cased form is [fst ke], and
    the fields that make up the entry [snd ke]. *)
Definition row_entry (lower : string -> string) (row : json)
    (ke : string * entry) : Prop :=
  exists t nm,
    getitem row "team" = Ok t
    /\ getitem t "name" = Ok (JStr nm)
    /\ fst ke = lower nm
    /\ getitem row "position" = Ok (position (snd ke))
    /\ getitem row "playedGames" = Ok (played (snd ke))
    /\ getitem row "points" = Ok (points (snd ke)).

Definition insert_all (kes : list (string * entry)) (acc : table) : table :=
  fold_left (fun d ke => dict_set (fst ke) (snd ke) d) kes acc.

Definition total (vs : list Z) : Z := fold_right Z.add 0 vs.

(** [a] occurs in [b] as a contiguous substring. *)
Definition is_substring (a b : string) : Prop :=
  exists pre post, b = pre ++ a ++ post.

(** ** Sample inputs *)

Definition sample_entry (n : Z) : entry :=
  {| position := JInt n; played := JInt 10; points := JInt 20 |}.

Definition sample_table : table :=
  [("chelsea fc", sample_entry 1); ("arsenal fc", sample_entry 2);
   ("arsenal women", sample_entry 3)].

Definition team_row (nm : string) (pos pl pts : json) : json :=
  JObj [("position", pos);
        ("team", JObj [("id", JInt 57); ("name", JStr nm)]);
        ("playedGames", pl);
        ("points", pts)].

Definition standings_doc (rows : list json) : json :=
  JObj [("competition", JObj [("code", JStr "PL")]);
        ("standings",
         JArr [JObj [("stage", JStr "REGULAR_SEASON");
                     ("type", JStr "TOTAL");
                     ("table", JArr rows)]])].

(** A provider that knows the Premier League only. *)
Definition serve (rows : list json) (url : string) (token : option string)
  : http_result :=
  if String.eqb url (standings_url "PL")
  then Response 200 "" (Ok (standings_doc rows))
  else Response 404 "not found" (Err (JSONDecodeError "Expecting value")).

Definition two_teams : list json :=
  [team_row "Arsenal" (JInt 1) (JInt 1) (JInt 3);
   team_row "Chelsea" (JInt 2) (JInt 1) (JInt 0)].

Definition two_teams_later : list json :=
  [team_row "Arsenal" (JInt 1) (JInt 2) (JInt 6);
   team_row "Chelsea" (JInt 2) (JInt 1) (JInt 0)].

Definition same_name_twice : list json :=
  [team_row "Athletic Club" (JInt 1) (JInt 1) (JInt 3);
   team_row "ATHLETIC CLUB" (JInt 2) (JInt 1) (JInt 0)].

Definition one_team : list json :=
  [team_row "Arsenal" (JInt 1) (JInt 5) (JInt 15)].

Definition null_position : list json :=
  [team_row "Arsenal" JNull (JInt 1) (JInt 3);
   team_row "Chelsea" (JInt 2) (JInt 1) (JInt 0)].

Definition nameless_first : list json :=
  [team_row "" (JInt 1) (JInt 1) (JInt 3);
   team_row "Chelsea" (JInt 2) (JInt 1) (JInt 0)].

Definition two_teams_table : table :=
  [("arsenal", {| position := JInt 1; played := JInt 1; points := JInt 3 |});
   ("chelsea", {| position := JInt 2; played := JInt 1; points := JInt 0 |})].

Definition two_teams_later_table : table :=
  [("arsenal", {| position := JInt 1; played := JInt 2; points := JInt 6 |});
   ("chelsea", {| position := JInt 2; played := JInt 1; points := JInt 0 |})].

(** Every position stored in the table is a number. *)
Definition numeric_positions (tbl : table) : Prop :=
  Forall (fun ke => exists z, as_int (position (snd ke)) = Ok z) tbl.

(** The query is empty, or resolves to a key that is not the empty string. *)
Definition empty_or_found (lower : string -> string) (query : string)
    (tbl : table) : Prop :=
  query = "" \/ exists k, find_team lower query tbl = Some k /\ k <> "".

Definition progress_in (rows : list json) : Q :=
  match get_standings ascii_lower None (serve rows) "PL" with
  | Ok (_, _, p) => p
  | Err _ => 0
  end.

Definition two_teams_progress : Q := Eval vm_compute in progress_in two_teams.

Definition two_teams_later_progress : Q :=
  Eval vm_compute in progress_in two_teams_later.

(** ** Further vocabulary and sample inputs *)

Definition result_map {A B : Type} (f : A -> B) (c : result A) : result B :=
  match c with
  | Ok a => Ok (f a)
  | Err e => Err e
  end.

(** The same response with the two teams exchanged. *)
Definition swap_teams (r : response) : response :=
  match body_content r with
  | MatchContent m =>
      {| status := status r;
         body_content := MatchContent {|
           league_code := league_code m;
           team1_info := team2_info m;
           team2_info := team1_info m;
           importance := importance m;
           season_progress := season_progress m |} |}
  | _ => r
  end.

(** Every row has played [g] games. *)
Definition all_played (g : Z) (rows : list json) : Prop :=
  Forall (fun row => row_played row g) rows.

(** Providers that fail in one way each. *)
Definition unreachable (url : string) (token : option string) : http_result :=
  ConnectionFailed "Max retries exceeded".

Definition unavailable (url : string) (token : option string) : http_result :=
  Response 503 "Service Unavailable" (Err (JSONDecodeError "Expecting value")).

Definition not_json (url : string) (token : option string) : http_result :=
  Response 200 "<html></html>" (Err (JSONDecodeError "Expecting value")).

Definition serve_doc (doc : json) (url : string) (token : option string)
  : http_result :=
  Response 200 "" (Ok doc).

Definition bad_games_row : list json :=
  [team_row "Arsenal" (JInt 1) (JInt 1) (JInt 3);
   team_row "Chelsea" (JInt 2) (JStr "one") (JInt 0)].

Definition finished_two : list json :=
  [team_row "Arsenal" (JInt 1) (JInt 2) (JInt 6);
   team_row "Chelsea" (JInt 2) (JInt 2) (JInt 0)].

Definition finished_two_table : table :=
  [("arsenal", {| position := JInt 1; played := JInt 2; points := JInt 6 |});
   ("chelsea", {| position := JInt 2; played := JInt 2; points := JInt 0 |})].

(** * Facts about the binary64 model *)

Module FloatFacts.

Local Open Scope Q_scope.

Lemma Qltb_lt (x y : Q) : Qltb x y = true <-> x < y.
Proof.
  unfold Qltb. rewrite negb_true_iff. split; intros H.
  - apply Qnot_le_lt. intros C. apply Qle_bool_iff in C. congruence.
  - destruct (Qle_bool y x) eqn:E; [|reflexivity].
    apply Qle_bool_iff in E. exfalso. apply (Qlt_not_le _ _ H E).
Qed.

Lemma Qltb_ge (x y : Q) : Qltb x y = false <-> y <= x.
Proof.
  unfold Qltb. rewrite negb_false_iff. apply Qle_bool_iff.
Qed.

Lemma py_round_range (x : Q) :
  (py_round x = Qfloor x \/ py_round x = Qfloor x + 1)%Z.
Proof.
  unfold py_round.
  destruct (Qltb _ _); [now left|].
  destruct (Qltb _ _); [now right|].
  destruct (Z.even _); [now left|now right].
Qed.

Lemma py_round_mono (x y : Q) : x <= y -> (py_round x <= py_round y)%Z.
Proof.
  intros Hxy.
  pose proof (Qfloor_resp_le _ _ Hxy) as Hf.
  destruct (Z.eq_dec (Qfloor x) (Qfloor y)) as [E|N].
  - unfold py_round. rewrite <- E.
    destruct (Qltb (x - inject_Z (Qfloor x)) (1#2)) eqn:A1;
    destruct (Qltb (y - inject_Z (Qfloor x)) (1#2)) eqn:B1;
    destruct (Qltb (1#2) (x - inject_Z (Qfloor x))) eqn:A2;
    destruct (Qltb (1#2) (y - inject_Z (Qfloor x))) eqn:B2;
    destruct (Z.even (Qfloor x));
    try lia;
    repeat match goal with
    | H : Qltb _ _ = true |- _ => apply Qltb_lt in H
    | H : Qltb _ _ = false |- _ => apply Qltb_ge in H
    end; exfalso; lra.
  - destruct (py_round_range x), (py_round_range y); lia.
Qed.

Lemma py_round_Z (k : Z) : py_round (inject_Z k) = k.
Proof.
  unfold py_round. rewrite Qfloor_Z.
  assert (E : Qltb (inject_Z k - inject_Z k) (1#2) = true).
  { apply Qltb_lt. lra. }
  now rewrite E.
Qed.

Lemma py_round_le_Z (x : Q) (k : Z) : x <= inject_Z k -> (py_round x <= k)%Z.
Proof. intros H. rewrite <- (py_round_Z k). now apply py_round_mono. Qed.

Lemma py_round_ge_Z (x : Q) (k : Z) : inject_Z k <= x -> (k <= py_round x)%Z.
Proof. intros H. rewrite <- (py_round_Z k). now apply py_round_mono. Qed.

(** Powers of two. *)

Lemma pow2_pos (e : Z) : 0 < 2 ^ e.
Proof. apply Qpower_0_lt. reflexivity. Qed.

Lemma pow2_add (a b : Z) : 2 ^ (a + b) == 2 ^ a * 2 ^ b.
Proof. apply Qpower_plus. discriminate. Qed.

Lemma pow2_le (a b : Z) : (a <= b)%Z -> 2 ^ a <= 2 ^ b.
Proof. intros H. apply Qpower_le_compat_l; [exact H|discriminate]. Qed.

Lemma pow2_lt (a b : Z) : (a < b)%Z -> 2 ^ a < 2 ^ b.
Proof. intros H. apply Qpower_lt_compat_l; [exact H|reflexivity]. Qed.

Lemma pow2_Z (n : Z) : (0 <= n)%Z -> inject_Z (2 ^ n) == 2 ^ n.
Proof. intros H. now rewrite Zpower_Qpower. Qed.

Lemma Zlog2_bounds (n : Z) :
  (0 < n)%Z -> 2 ^ Z.log2 n <= inject_Z n /\ inject_Z n < 2 ^ (Z.log2 n + 1).
Proof.
  intros H. destruct (Z.log2_spec n H) as [L U].
  pose proof (Z.log2_nonneg n) as Hn.
  split.
  - rewrite <- pow2_Z by exact Hn. now rewrite <- Zle_Qle.
  - rewrite <- pow2_Z by lia. now rewrite <- Zlt_Qlt.
Qed.

(** [ilog2] is the binary logarithm rounded down. *)
Lemma ilog2_spec (q : Q) :
  0 < q -> 2 ^ ilog2 q <= q /\ q < 2 ^ (ilog2 q + 1).
Proof.
  intros Hq.
  assert (Ha : (0 < Qnum q)%Z).
  { destruct q as [a b]. unfold Qlt in Hq. simpl in *. lia. }
  destruct (Zlog2_bounds (Qnum q) Ha) as [La Ua].
  destruct (Zlog2_bounds (Zpos (Qden q)) eq_refl) as [Lb Ub].
  unfold ilog2.
  set (la := Z.log2 (Qnum q)) in *. set (lb := Z.log2 (Zpos (Qden q))) in *.
  assert (Eq : q * inject_Z (Zpos (Qden q)) == inject_Z (Qnum q)).
  { destruct q as [a b]. unfold Qeq, Qmult, inject_Z. simpl. lia. }
  assert (HB : 0 < inject_Z (Zpos (Qden q))) by reflexivity.
  set (A := inject_Z (Qnum q)) in *. set (B := inject_Z (Zpos (Qden q))) in *.
  pose proof (pow2_pos (la - lb)) as Hd.
  pose proof (pow2_pos lb) as Hlb.
  assert (E1 : 2 ^ (la - lb + 1) * 2 ^ lb == 2 ^ (la + 1)).
  { rewrite <- pow2_add. now replace (la - lb + 1 + lb)%Z with (la + 1)%Z by lia. }
  assert (E2 : 2 ^ (la - lb - 1) * 2 ^ (lb + 1) == 2 ^ la).
  { rewrite <- pow2_add. now replace (la - lb - 1 + (lb + 1))%Z with la by lia. }
  assert (U : q < 2 ^ (la - lb + 1)).
  { apply (Qmult_lt_r _ _ B HB). rewrite Eq.
    apply Qlt_le_trans with (1 := Ua). rewrite <- E1.
    apply Qmult_le_l; [apply pow2_pos|exact Lb]. }
  assert (L : 2 ^ (la - lb - 1) < q).
  { apply (Qmult_lt_r _ _ B HB). rewrite Eq.
    apply Qlt_le_trans with (2 := La). rewrite <- E2.
    apply Qmult_lt_l; [apply pow2_pos|exact Ub]. }
  destruct (Qle_bool (2 ^ (la - lb)) q) eqn:C.
  - apply Qle_bool_iff in C. split; [exact C|exact U].
  - split; [apply Qlt_le_weak; exact L|].
    replace (la - lb - 1 + 1)%Z with (la - lb)%Z by lia.
    apply Qnot_le_lt. intros K. apply Qle_bool_iff in K. congruence.
Qed.

Lemma ilog2_mono (x y : Q) : 0 < x -> x <= y -> (ilog2 x <= ilog2 y)%Z.
Proof.
  intros Hx Hxy.
  destruct (ilog2_spec x Hx) as [Lx _].
  destruct (ilog2_spec y (Qlt_le_trans _ _ _ Hx Hxy)) as [_ Uy].
  destruct (Z_le_gt_dec (ilog2 x) (ilog2 y)) as [?|G]; [assumption|exfalso].
  assert (2 ^ (ilog2 y + 1) <= 2 ^ ilog2 x) by (apply pow2_le; lia).
  lra.
Qed.

Lemma pow2_div (a u : Z) : 2 ^ a / 2 ^ u == 2 ^ (a - u).
Proof.
  unfold Z.sub. rewrite pow2_add, Qpower_opp. reflexivity.
Qed.

Lemma pow2_split (a u : Z) : 2 ^ a == 2 ^ (a - u) * 2 ^ u.
Proof. rewrite <- pow2_add. now replace (a - u + u)%Z with a by lia. Qed.

Lemma Qdiv_le_r (x y z : Q) : 0 < z -> x <= y -> x / z <= y / z.
Proof.
  intros Hz H. unfold Qdiv. apply Qmult_le_compat_r; [exact H|].
  apply Qlt_le_weak, Qinv_lt_0_compat, Hz.
Qed.

(** Rounding on the grid [2^u] never crosses a power of two of the grid. *)
Lemma grid_round_le (x : Q) (a u : Z) :
  (u <= a)%Z -> x <= 2 ^ a -> inject_Z (py_round (x / 2 ^ u)) * 2 ^ u <= 2 ^ a.
Proof.
  intros Hu Hx.
  assert (H : (py_round (x / 2 ^ u) <= 2 ^ (a - u))%Z).
  { apply py_round_le_Z. rewrite pow2_Z by lia. rewrite <- pow2_div.
    apply Qdiv_le_r; [apply pow2_pos|exact Hx]. }
  rewrite Zle_Qle, pow2_Z in H by lia.
  rewrite (pow2_split a u).
  apply Qmult_le_compat_r; [exact H|apply Qlt_le_weak, pow2_pos].
Qed.

Lemma grid_round_ge (x : Q) (a u : Z) :
  (u <= a)%Z -> 2 ^ a <= x -> 2 ^ a <= inject_Z (py_round (x / 2 ^ u)) * 2 ^ u.
Proof.
  intros Hu Hx.
  assert (H : (2 ^ (a - u) <= py_round (x / 2 ^ u))%Z).
  { apply py_round_ge_Z. rewrite pow2_Z by lia. rewrite <- pow2_div.
    apply Qdiv_le_r; [apply pow2_pos|exact Hx]. }
  rewrite Zle_Qle, pow2_Z in H by lia.
  rewrite (pow2_split a u) at 1.
  apply Qmult_le_compat_r; [exact H|apply Qlt_le_weak, pow2_pos].
Qed.

Lemma RN_pos_mono (x y : Q) : 0 < x -> x <= y -> RN_pos x <= RN_pos y.
Proof.
  intros Hx Hxy.
  assert (Hy : 0 < y) by lra.
  pose proof (ilog2_mono x y Hx Hxy) as He.
  destruct (ilog2_spec x Hx) as [_ Ux].
  destruct (ilog2_spec y Hy) as [Ly _].
  unfold RN_pos, ulp_exp.
  set (ex := ilog2 x) in *. set (ey := ilog2 y) in *.
  destruct (Z.eq_dec (Z.max (ex - 52) (-1074)) (Z.max (ey - 52) (-1074)))
    as [E|N].
  - rewrite <- E. apply Qmult_le_compat_r.
    + rewrite <- Zle_Qle. apply py_round_mono.
      apply Qdiv_le_r; [apply pow2_pos|exact Hxy].
    + apply Qlt_le_weak, pow2_pos.
  - apply Qle_trans with (2 ^ ey).
    + apply grid_round_le; [lia|].
      apply Qle_trans with (2 ^ (ex + 1)); [lra|apply pow2_le; lia].
    + apply grid_round_ge; [lia|exact Ly].
Qed.

Lemma RN_pos_nonneg (x : Q) : 0 < x -> 0 <= RN_pos x.
Proof.
  intros Hx. unfold RN_pos.
  apply Qmult_le_0_compat; [|apply Qlt_le_weak, pow2_pos].
  change 0 with (inject_Z 0). rewrite <- Zle_Qle.
  apply py_round_ge_Z. change (inject_Z 0) with 0.
  apply Qlt_le_weak, Qlt_shift_div_l; [apply pow2_pos|].
  now rewrite Qmult_0_l.
Qed.

(** Rounding to the nearest float is monotone. *)
Lemma RN_mono (x y : Q) : x <= y -> RN x <= RN y.
Proof.
  intros Hxy. unfold RN.
  destruct (x ?= 0) eqn:Cx; destruct (y ?= 0) eqn:Cy;
    try rewrite <- Qeq_alt in *; try rewrite <- Qlt_alt in *;
    try rewrite <- Qgt_alt in *; try lra.
  - apply RN_pos_nonneg; lra.
  - assert (0 <= RN_pos (- x)) by (apply RN_pos_nonneg; lra). lra.
  - assert (RN_pos (- y) <= RN_pos (- x)) by (apply RN_pos_mono; lra). lra.
  - assert (0 <= RN_pos (- x)) by (apply RN_pos_nonneg; lra).
    assert (0 <= RN_pos y) by (apply RN_pos_nonneg; lra). lra.
  - now apply RN_pos_mono.
Qed.

Lemma RN_Qeq (x y : Q) : x == y -> RN x == RN y.
Proof.
  intros E. apply Qle_antisym; apply RN_mono; rewrite E; apply Qle_refl.
Qed.

Lemma RN_0 : RN 0 == 0.
Proof. reflexivity. Qed.

Lemma RN_1 : RN 1 == 1.
Proof. vm_compute. reflexivity. Qed.

Lemma RN_nonneg (x : Q) : 0 <= x -> 0 <= RN x.
Proof. intros H. rewrite <- RN_0. now apply RN_mono. Qed.

Lemma RN_2 : RN 2 == 2.
Proof. vm_compute. reflexivity. Qed.

Lemma RN_le_1 (x : Q) : x <= 1 -> RN x <= 1.
Proof. intros H. rewrite <- RN_1. now apply RN_mono. Qed.

(** [float(m)] is at least 2 for an [int] [m >= 2]. *)
Lemma float_of_int_ge_2 (m : Z) : (2 <= m)%Z -> 2 <= float_of_int m.
Proof.
  intros H. unfold float_of_int. rewrite <- RN_2. apply RN_mono.
  change 2 with (inject_Z 2). now rewrite <- Zle_Qle.
Qed.

Lemma RN_huge : RN huge == huge /\ RN (- huge) == - huge.
Proof. split; vm_compute; reflexivity. Qed.

(** Rounding a number of magnitude at most [2^1023] does not overflow. *)
Lemma no_overflow (x : Q) : - huge <= x -> x <= huge -> overflows (RN x) = false.
Proof.
  intros L U. destruct RN_huge as [Eh En].
  pose proof (RN_mono _ _ L) as L'. pose proof (RN_mono _ _ U) as U'.
  rewrite En in L'. rewrite Eh in U'.
  unfold overflows. destruct (Qle_bool (2 ^ 1024) (Qabs (RN x))) eqn:C;
    [|reflexivity].
  apply Qle_bool_iff in C.
  assert (A : Qabs (RN x) <= huge) by (apply Qabs_Qle_condition; now split).
  assert (S : huge < 2 ^ 1024) by (apply pow2_lt; lia).
  exfalso. apply (Qlt_not_le _ _ S). apply Qle_trans with (1 := C). exact A.
Qed.

(** Bounds on a quotient of integers with a positive divisor. *)
Lemma Zdiv_Q_le (t n hi : Z) :
  (0 < n)%Z -> (t <= hi * n)%Z -> inject_Z t / inject_Z n <= inject_Z hi.
Proof.
  intros Hn H. apply Qle_shift_div_r.
  - change 0 with (inject_Z 0). now rewrite <- Zlt_Qlt.
  - rewrite <- inject_Z_mult, <- Zle_Qle. exact H.
Qed.

Lemma Zdiv_Q_ge (t n lo : Z) :
  (0 < n)%Z -> (lo * n <= t)%Z -> inject_Z lo <= inject_Z t / inject_Z n.
Proof.
  intros Hn H. apply Qle_shift_div_l.
  - change 0 with (inject_Z 0). now rewrite <- Zlt_Qlt.
  - rewrite <- inject_Z_mult, <- Zle_Qle. exact H.
Qed.

Lemma Zdiv_Q_mono (t t' n : Z) :
  (0 < n)%Z -> (t <= t')%Z ->
  inject_Z t / inject_Z n <= inject_Z t' / inject_Z n.
Proof.
  intros Hn H. apply Qdiv_le_r.
  - change 0 with (inject_Z 0). now rewrite <- Zlt_Qlt.
  - now rewrite <- Zle_Qle.
Qed.

Lemma huge_Z : inject_Z (2 ^ 1023) == huge.
Proof. unfold huge. now rewrite pow2_Z. Qed.

(** Exactness: numbers with a 53-bit significand are floats. *)

Lemma py_round_Qeq (x y : Q) : x == y -> py_round x = py_round y.
Proof.
  intros E. apply Z.le_antisymm; apply py_round_mono; rewrite E;
    apply Qle_refl.
Qed.

Lemma ilog2_lt (x : Q) (a : Z) : 0 < x -> x < 2 ^ a -> (ilog2 x < a)%Z.
Proof.
  intros Hx H. destruct (ilog2_spec x Hx) as [L _].
  apply Qpower_lt_compat_l_inv with (q := 2); [|reflexivity].
  apply Qle_lt_trans with (1 := L). exact H.
Qed.

Lemma RN_pos_exact (x : Q) (m c : Z) :
  0 < x -> x == inject_Z m * 2 ^ c -> (ulp_exp x <= c)%Z -> RN_pos x == x.
Proof.
  intros Hx E Hu. unfold RN_pos. set (u := ulp_exp x) in *.
  assert (S : x == inject_Z (m * 2 ^ (c - u)) * 2 ^ u).
  { rewrite inject_Z_mult, pow2_Z by lia. rewrite <- Qmult_assoc.
    rewrite <- pow2_split. exact E. }
  assert (R : py_round (x / 2 ^ u) = (m * 2 ^ (c - u))%Z).
  { rewrite <- (py_round_Z (m * 2 ^ (c - u))). apply py_round_Qeq.
    rewrite S at 1. field. apply Qpower_not_0. discriminate. }
  rewrite R. symmetry. exact S.
Qed.

Lemma RN_exact_pos (m c : Z) :
  (0 < m < 2 ^ 53)%Z -> (-1074 <= c)%Z ->
  RN (inject_Z m * 2 ^ c) == inject_Z m * 2 ^ c.
Proof.
  intros Hm Hc. set (x := inject_Z m * 2 ^ c).
  assert (Hx : 0 < x).
  { apply Qmult_lt_0_compat; [|apply pow2_pos].
    change 0 with (inject_Z 0). rewrite <- Zlt_Qlt. lia. }
  unfold RN. rewrite (proj1 (Qgt_alt x 0) Hx).
  apply RN_pos_exact with (m := m) (c := c); [exact Hx|reflexivity|].
  unfold ulp_exp. apply Z.max_lub; [|exact Hc].
  assert (ilog2 x < c + 53)%Z; [|lia].
  apply ilog2_lt; [exact Hx|]. unfold x.
  rewrite Qmult_comm, pow2_add. apply Qmult_lt_l; [apply pow2_pos|].
  rewrite <- pow2_Z by lia. rewrite <- Zlt_Qlt. lia.
Qed.

Lemma RN_opp (x : Q) : RN (- x) == - RN x.
Proof.
  unfold RN. destruct (x ?= 0) eqn:C.
  - rewrite <- Qeq_alt in C.
    assert (C' : (- x ?= 0) = Eq) by (rewrite <- Qeq_alt; lra).
    rewrite C'. reflexivity.
  - rewrite <- Qlt_alt in C.
    assert (C' : (- x ?= 0) = Gt) by (rewrite <- Qgt_alt; lra).
    rewrite C'. ring.
  - rewrite <- Qgt_alt in C.
    assert (C' : (- x ?= 0) = Lt) by (rewrite <- Qlt_alt; lra).
    rewrite C'.
    assert (E : RN_pos (- - x) == RN_pos x).
    { apply Qle_antisym; apply RN_pos_mono; lra. }
    rewrite E. reflexivity.
Qed.

(** Every [m * 2^c] with [|m| < 2^53] and [c >= -1074] is its own rounding. *)
Lemma RN_exact (m c : Z) :
  (Z.abs m < 2 ^ 53)%Z -> (-1074 <= c)%Z ->
  RN (inject_Z m * 2 ^ c) == inject_Z m * 2 ^ c.
Proof.
  intros Hm Hc. destruct (Z.lt_trichotomy m 0) as [N|[->|P]].
  - assert (E : inject_Z m * 2 ^ c == - (inject_Z (- m) * 2 ^ c)).
    { rewrite inject_Z_opp. ring. }
    rewrite (RN_Qeq _ _ E), RN_opp, RN_exact_pos; [|lia|exact Hc].
    symmetry. exact E.
  - assert (E : inject_Z 0 * 2 ^ c == 0) by apply Qmult_0_l.
    rewrite (RN_Qeq _ _ E), E. reflexivity.
  - apply RN_exact_pos; [lia|exact Hc].
Qed.

Lemma float_of_int_exact (k : Z) :
  (Z.abs k < 2 ^ 53)%Z -> float_of_int k == inject_Z k.
Proof.
  intros H. unfold float_of_int.
  assert (E : inject_Z k == inject_Z k * 2 ^ 0) by (simpl; ring).
  rewrite (RN_Qeq _ _ E), RN_exact; [|exact H|lia].
  symmetry. exact E.
Qed.

Lemma int_truediv_2_exact (n : Z) :
  (Z.abs n < 2 ^ 53)%Z -> int_truediv n 2 == inject_Z n / 2.
Proof.
  intros H. unfold int_truediv.
  assert (E : inject_Z n / inject_Z 2 == inject_Z n * 2 ^ (-1)).
  { reflexivity. }
  rewrite (RN_Qeq _ _ E), RN_exact; [|exact H|lia].
  reflexivity.
Qed.

(** Accuracy: rounding moves a number by at most half a unit in the last
    place. *)

Lemma py_round_error (z : Q) :
  inject_Z (py_round z) - z <= 1 # 2 /\ z - inject_Z (py_round z) <= 1 # 2.
Proof.
  pose proof (Qfloor_le z) as L. pose proof (Qlt_floor z) as U.
  rewrite inject_Z_plus in U. change (inject_Z 1) with 1 in U.
  unfold py_round.
  destruct (Qltb (z - inject_Z (Qfloor z)) (1 # 2)) eqn:A.
  - apply Qltb_lt in A. split; lra.
  - apply Qltb_ge in A.
    destruct (Qltb (1 # 2) (z - inject_Z (Qfloor z))) eqn:B.
    + rewrite inject_Z_plus. change (inject_Z 1) with 1. split; lra.
    + apply Qltb_ge in B. destruct (Z.even (Qfloor z)).
      * split; lra.
      * rewrite inject_Z_plus. change (inject_Z 1) with 1. split; lra.
Qed.

Lemma py_round_near (y : Q) (k : Z) :
  inject_Z k - (1 # 2) < y -> y < inject_Z k + (1 # 2) -> py_round y = k.
Proof.
  intros L U. destruct (py_round_error y) as [A B].
  assert (H1 : inject_Z (py_round y) < inject_Z (k + 1)).
  { rewrite inject_Z_plus. change (inject_Z 1) with 1. lra. }
  assert (H2 : inject_Z (k - 1) < inject_Z (py_round y)).
  { unfold Z.sub. rewrite inject_Z_plus, inject_Z_opp.
    change (inject_Z 1) with 1. lra. }
  rewrite <- Zlt_Qlt in H1, H2. lia.
Qed.

Lemma RN_pos_error (x : Q) :
  0 < x ->
  RN_pos x - x <= 2 ^ ulp_exp x * (1 # 2)
  /\ x - RN_pos x <= 2 ^ ulp_exp x * (1 # 2).
Proof.
  intros Hx. unfold RN_pos. set (u := ulp_exp x).
  pose proof (pow2_pos u) as HU. set (U := 2 ^ u) in *.
  destruct (py_round_error (x / U)) as [A B].
  set (k := inject_Z (py_round (x / U))) in *.
  assert (E : x == x / U * U) by (field; lra).
  assert (A' : (k - x / U) * U <= (1 # 2) * U)
    by (apply Qmult_le_compat_r; lra).
  assert (B' : (x / U - k) * U <= (1 # 2) * U)
    by (apply Qmult_le_compat_r; lra).
  split.
  - setoid_replace (k * U - x) with ((k - x / U) * U).
    + lra.
    + rewrite E at 1. ring.
  - setoid_replace (x - k * U) with ((x / U - k) * U).
    + lra.
    + rewrite E at 1. ring.
Qed.

Lemma ulp_exp_lt (x : Q) (a : Z) :
  0 < x -> x < 2 ^ a -> (-1074 <= a - 53)%Z -> (ulp_exp x <= a - 53)%Z.
Proof.
  intros Hx H Ha. pose proof (ilog2_lt x a Hx H). unfold ulp_exp. lia.
Qed.

(** [n * 0.2] as a float is within [2^-13] of [n / 5] for [0 < n < 2^40]. *)
Lemma fifth_accurate (n : Z) :
  (0 < n < 2 ^ 40)%Z ->
  inject_Z n / 5 - (1 # 8192) < fmul (float_of_int n) lit_0_2
  /\ fmul (float_of_int n) lit_0_2 < inject_Z n / 5 + (1 # 8192).
Proof.
  intros Hn.
  assert (Ec : lit_0_2 == 3602879701896397 # 18014398509481984)
    by (vm_compute; reflexivity).
  assert (En : float_of_int n == inject_Z n) by (apply float_of_int_exact; lia).
  assert (N0 : 0 < inject_Z n).
  { change 0 with (inject_Z 0). rewrite <- Zlt_Qlt. lia. }
  assert (N1 : inject_Z n < inject_Z (2 ^ 40)) by (rewrite <- Zlt_Qlt; lia).
  change (inject_Z (2 ^ 40)) with (1099511627776 # 1) in N1.
  set (x := float_of_int n * lit_0_2).
  assert (Ex : x == inject_Z n * (3602879701896397 # 18014398509481984)).
  { unfold x. rewrite En, Ec. reflexivity. }
  assert (Hx : 0 < x) by (rewrite Ex; lra).
  assert (Hb : x < 2 ^ 40).
  { rewrite Ex. change (2 ^ 40) with (1099511627776 # 1). lra. }
  pose proof (ulp_exp_lt x 40 Hx Hb ltac:(lia)) as Hu.
  pose proof (pow2_le _ _ Hu) as Hp.
  change (2 ^ (40 - 53)) with (1 # 8192) in Hp.
  destruct (RN_pos_error x Hx) as [A B].
  unfold fmul. fold x. unfold RN. rewrite (proj1 (Qgt_alt x 0) Hx).
  assert (Q5 : inject_Z n / 5 == inject_Z n * (1 # 5)) by (field).
  rewrite Q5. clearbody x. split; lra.
Qed.

(** The model agrees with hardware binary64 on the operations of the
    source: the literals, [total_teams * 0.2], [total_teams / 2] and the two
    divisions of the season progress. *)

Set Warnings "-inexact-float".

Example literals_agree :
  agrees 0.33 lit_0_33 = true /\ agrees 0.66 lit_0_66 = true
  /\ agrees 0.2 lit_0_2 = true.
Proof. repeat split; vm_compute; reflexivity. Qed.

Example zone_product_agrees :
  forallb (fun n => agrees (prim_of_Z n * 0.2)
                           (fmul (float_of_int n) lit_0_2))
          (map Z.of_nat (seq 0 200)) = true.
Proof. vm_compute. reflexivity. Qed.

Example half_agrees :
  forallb (fun n => agrees (prim_of_Z n / prim_of_Z 2) (int_truediv n 2))
          (map Z.of_nat (seq 0 200)) = true.
Proof. vm_compute. reflexivity. Qed.

Example progress_agrees :
  forallb (fun t =>
             agrees (prim_of_Z t / prim_of_Z 20 / prim_of_Z 38)
                    (fdiv (int_truediv t 20) (float_of_int 38)))
          (map Z.of_nat (seq 0 200)) = true.
Proof. vm_compute. reflexivity. Qed.

Example quotients_agree :
  forallb (fun a =>
             forallb (fun b => agrees (prim_of_Z a / prim_of_Z b)
                                      (int_truediv a b))
                     (map Z.of_nat (seq 1 40)))
          (map Z.of_nat (seq 0 40)) = true.
Proof. vm_compute. reflexivity. Qed.

Example ties_agree :
  forallb (fun k => agrees (prim_of_Z (2 ^ 53 + k))
                           (float_of_int (2 ^ 53 + k)))
          (map Z.of_nat (seq 0 16)) = true.
Proof. vm_compute. reflexivity. Qed.

Example subnormal_agrees :
  agrees (prim_of_Z 1 / prim_of_Z 3 * 0x1p-1070) (RN ((1 # 3) * 2 ^ (-1070)))
  = true.
Proof. vm_compute. reflexivity. Qed.

Set Warnings "+inexact-float".

End FloatFacts.

(** * The importance classifier *)

Module Classifier.

Local Open Scope Z_scope.

Lemma zone_size_20 : zone_size 20 = 4.
Proof. vm_compute. reflexivity. Qed.

(** On leagues of realistic size the float comparisons of the classifier are
    the integer comparisons one expects. *)
Lemma half_lt (n pos : Z) :
  (inject_Z n / 2 < inject_Z pos)%Q <-> n < 2 * pos.
Proof.
  rewrite Zlt_Qlt, inject_Z_mult. change (inject_Z 2) with 2%Q.
  assert (E : (inject_Z n == inject_Z n / 2 * 2)%Q) by (field; discriminate).
  split; intros L.
  - rewrite E. rewrite (Qmult_comm 2).
    apply Qmult_lt_compat_r; [reflexivity|exact L].
  - apply Qlt_shift_div_r; [reflexivity|]. now rewrite Qmult_comm.
Qed.

Lemma half_gt (n pos : Z) :
  (inject_Z pos < inject_Z n / 2)%Q <-> 2 * pos < n.
Proof.
  rewrite Zlt_Qlt, inject_Z_mult. change (inject_Z 2) with 2%Q.
  assert (E : (inject_Z n == inject_Z n / 2 * 2)%Q) by (field; discriminate).
  split; intros L.
  - rewrite E. rewrite (Qmult_comm 2).
    apply Qmult_lt_compat_r; [reflexivity|exact L].
  - apply Qlt_shift_div_l; [reflexivity|]. now rewrite Qmult_comm.
Qed.

Lemma gt_half_exact (pos n : Z) :
  Z.abs n < 2 ^ 53 -> gt_half pos n = (n <? 2 * pos).
Proof.
  intros H. unfold gt_half. apply eq_true_iff_eq.
  rewrite FloatFacts.Qltb_lt, Z.ltb_lt, FloatFacts.int_truediv_2_exact
    by exact H.
  apply half_lt.
Qed.

Lemma lt_half_exact (pos n : Z) :
  Z.abs n < 2 ^ 53 -> lt_half pos n = (2 * pos <? n).
Proof.
  intros H. unfold lt_half. apply eq_true_iff_eq.
  rewrite FloatFacts.Qltb_lt, Z.ltb_lt, FloatFacts.int_truediv_2_exact
    by exact H.
  apply half_gt.
Qed.

(** The zone is a fifth of the league, rounded to the nearest integer, and
    at least 3. *)
Lemma zone_size_exact (n : Z) :
  0 <= n < 2 ^ 40 -> zone_size n = Z.max 3 ((n + 2) / 5).
Proof.
  intros H. unfold zone_size. f_equal.
  destruct (Z.eq_dec n 0) as [->|N0]; [vm_compute; reflexivity|].
  destruct (FloatFacts.fifth_accurate n ltac:(lia)) as [L U].
  apply FloatFacts.py_round_near.
  - pose proof (Z.div_mod (n + 2) 5 ltac:(lia)) as D.
    pose proof (Z.mod_pos_bound (n + 2) 5 ltac:(lia)) as B.
    assert (E : (inject_Z n
                 == 5 * inject_Z ((n + 2) / 5)
                    + inject_Z ((n + 2) mod 5) - 2)%Q).
    { change 5%Q with (inject_Z 5). change 2%Q with (inject_Z 2).
      rewrite <- inject_Z_mult, <- inject_Z_plus.
      unfold Qminus. rewrite <- inject_Z_opp, <- inject_Z_plus.
      apply inject_Z_injective. lia. }
    assert (B0 : (0 <= inject_Z ((n + 2) mod 5))%Q).
    { change 0%Q with (inject_Z 0). rewrite <- Zle_Qle. lia. }
    apply Qlt_trans with (2 := L).
    assert (Q5 : (inject_Z n / 5 == inject_Z n * (1 # 5))%Q) by field.
    rewrite Q5, E. lra.
  - pose proof (Z.div_mod (n + 2) 5 ltac:(lia)) as D.
    pose proof (Z.mod_pos_bound (n + 2) 5 ltac:(lia)) as B.
    assert (E : (inject_Z n
                 == 5 * inject_Z ((n + 2) / 5)
                    + inject_Z ((n + 2) mod 5) - 2)%Q).
    { change 5%Q with (inject_Z 5). change 2%Q with (inject_Z 2).
      rewrite <- inject_Z_mult, <- inject_Z_plus.
      unfold Qminus. rewrite <- inject_Z_opp, <- inject_Z_plus.
      apply inject_Z_injective. lia. }
    assert (B4 : (inject_Z ((n + 2) mod 5) <= 4)%Q).
    { change 4%Q with (inject_Z 4). rewrite <- Zle_Qle. lia. }
    apply Qlt_trans with (1 := U).
    assert (Q5 : (inject_Z n / 5 == inject_Z n * (1 # 5))%Q) by field.
    rewrite Q5, E. lra.
Qed.

(** For leagues below [2^40] teams the float arithmetic of the classifier
    is exact: it is the classification in integer arithmetic. *)
Lemma spec_classify_exact (pos1 pos2 n : Z) :
  0 <= n < 2 ^ 40 ->
  spec_classify (zone_size n) pos1 pos2 n = classify_exact pos1 pos2 n.
Proof.
  intros H. unfold spec_classify, classify_exact.
  rewrite (zone_size_exact n H), !Z.gtb_ltb.
  rewrite !gt_half_exact, !lt_half_exact by lia.
  reflexivity.
Qed.

Lemma match_importance_exact (pos1 pos2 n : Z) (progress : Q) :
  0 <= n < 2 ^ 40 ->
  match_importance pos1 pos2 n progress
  = " " ++ label_text (classify_exact pos1 pos2 n)
      ++ " (" ++ stage_of progress ++ ")".
Proof.
  intros H. rewrite <- (spec_classify_exact pos1 pos2 n H).
  unfold match_importance, spec_classify, zone_size.
  set (z := Z.max 3 _).
  destruct (pos1 <=? z), (pos2 <=? z),
           (pos1 >? n - z), (pos2 >? n - z),
           (gt_half pos1 n), (gt_half pos2 n),
           (lt_half pos1 n), (lt_half pos2 n);
    reflexivity.
Qed.

(** C1, as stated, fails: the strings the code returns start with a space. *)
Lemma match_importance_not_bare_label :
  spec_importance 1 2 20 (1 # 2) = "Top clash (mid-season)"
  /\ match_importance 1 2 20 (1 # 2) <> spec_importance 1 2 20 (1 # 2).
Proof.
  split; [vm_compute; reflexivity|].
  vm_compute. discriminate.
Qed.

(** C1 (amended): for every input the classifier uses
    [zoneSize = max(3, round(totalTeams * 0.2))] for both zones, applies the
    ordered checks of the specification, first match wins, and returns one
    space, the label, and the stage in parentheses. *)
Theorem match_importance_spec (pos1 pos2 total_teams : Z) (progress : Q) :
  match_importance pos1 pos2 total_teams progress
  = " " ++ spec_importance pos1 pos2 total_teams progress.
Proof.
  unfold match_importance, spec_importance, spec_classify.
  set (z := Z.max 3 _).
  destruct (pos1 <=? z), (pos2 <=? z),
           (pos1 >? total_teams - z), (pos2 >? total_teams - z),
           (gt_half pos1 total_teams), (gt_half pos2 total_teams),
           (lt_half pos1 total_teams), (lt_half pos2 total_teams);
    reflexivity.
Qed.

(** C6: swapping the two positions does not change the result. *)
Theorem match_importance_sym (pos1 pos2 total_teams : Z) (progress : Q) :
  match_importance pos1 pos2 total_teams progress
  = match_importance pos2 pos1 total_teams progress.
Proof.
  unfold match_importance. set (z := Z.max 3 _).
  destruct (pos1 <=? z), (pos2 <=? z),
           (pos1 >? total_teams - z), (pos2 >? total_teams - z),
           (gt_half pos1 total_teams), (gt_half pos2 total_teams),
           (lt_half pos1 total_teams), (lt_half pos2 total_teams);
    reflexivity.
Qed.

(** C5: with 20 teams the zone is 4 wide; (1,2) is a top clash, (19,20) a
    relegation battle, (1,15) important for the top team and (10,11) a
    regular match, at every stage of the season. *)
Theorem twenty_team_league (progress : Q) :
  zone_size 20 = 4
  /\ match_importance 1 2 20 progress
     = " Top clash (" ++ stage_of progress ++ ")"
  /\ match_importance 19 20 20 progress
     = " Relegation battle (" ++ stage_of progress ++ ")"
  /\ match_importance 1 15 20 progress
     = " Important for top team (" ++ stage_of progress ++ ")"
  /\ match_importance 10 11 20 progress
     = " Regular match (" ++ stage_of progress ++ ")".
Proof.
  assert (G15 : gt_half 15 20 = true) by (vm_compute; reflexivity).
  assert (G10 : gt_half 10 20 = false) by (vm_compute; reflexivity).
  assert (G11 : gt_half 11 20 = true) by (vm_compute; reflexivity).
  assert (L10 : lt_half 10 20 = false) by (vm_compute; reflexivity).
  assert (L11 : lt_half 11 20 = false) by (vm_compute; reflexivity).
  unfold match_importance. fold (zone_size 20). rewrite zone_size_20.
  repeat split; cbn -[stage_of gt_half lt_half append];
    rewrite ?G15, ?G10, ?G11, ?L10, ?L11; reflexivity.
Qed.

(** C4: the stage is "early season" below 0.33, "mid-season" from 0.33 and
    below 0.66, and "end of the season" from 0.66 on; the thresholds are the
    floats written [0.33] and [0.66], and a progress equal to the first one is
    mid-season. *)
Theorem stage_thresholds (progress : Q) :
  ((progress < lit_0_33)%Q -> stage_of progress = "early season")
  /\ ((lit_0_33 <= progress)%Q -> (progress < lit_0_66)%Q ->
      stage_of progress = "mid-season")
  /\ ((lit_0_66 <= progress)%Q -> stage_of progress = "end of the season")
  /\ stage_of lit_0_33 = "mid-season"
  /\ (lit_0_33 == 5944751508129055 # 18014398509481984)%Q
  /\ (lit_0_66 == 5944751508129055 # 9007199254740992)%Q.
Proof.
  assert (L : (lit_0_33 < lit_0_66)%Q) by (vm_compute; reflexivity).
  unfold stage_of. split; [|split; [|split; [|split; [|split]]]].
  - intros H. apply FloatFacts.Qltb_lt in H. now rewrite H.
  - intros H1 H2. apply FloatFacts.Qltb_ge in H1.
    apply FloatFacts.Qltb_lt in H2. now rewrite H1, H2.
  - intros H.
    assert (H1 : (lit_0_33 <= progress)%Q) by lra.
    apply FloatFacts.Qltb_ge in H1. apply FloatFacts.Qltb_ge in H.
    now rewrite H1, H.
  - vm_compute. reflexivity.
  - vm_compute. reflexivity.
  - vm_compute. reflexivity.
Qed.

Lemma stage_thresholds_witness :
  stage_of (1 # 10) = "early season"
  /\ stage_of (1 # 2) = "mid-season"
  /\ stage_of (9 # 10) = "end of the season".
Proof.
  split; [|split].
  - destruct (stage_thresholds (1 # 10)) as [H _].
    apply H. vm_compute. reflexivity.
  - destruct (stage_thresholds (1 # 2)) as [_ [H _]].
    apply H.
    + vm_compute. discriminate.
    + vm_compute. reflexivity.
  - destruct (stage_thresholds (9 # 10)) as [_ [_ [H _]]].
    apply H. vm_compute. discriminate.
Defined.

End Classifier.

(** * The team resolver *)

Module Resolver.

Lemma prefix_app (a b : string) :
  prefix a b = true <-> exists post, b = a ++ post.
Proof.
  revert b. induction a as [|c a IH]; intros b.
  - destruct b; split; intros; try reflexivity; eexists; reflexivity.
  - destruct b as [|d b]; cbn [prefix append].
    + split; [discriminate|]. intros [post H]. discriminate.
    + destruct (ascii_dec c d) as [->|N].
      * rewrite IH. split; intros [post H]; exists post.
        -- now rewrite H.
        -- now inversion H.
      * split; [discriminate|]. intros [post H]. inversion H. congruence.
Qed.

Lemma contains_eq (a b : string) :
  contains a b
  = if prefix a b then true
    else match b with
         | EmptyString => false
         | String _ rest => contains a rest
         end.
Proof. destruct b; reflexivity. Qed.

(** The [in] operator on strings decides [is_substring]. *)
Lemma contains_spec (a b : string) :
  contains a b = true <-> is_substring a b.
Proof.
  induction b as [|d b IH]; rewrite contains_eq.
  - destruct (prefix a "") eqn:P.
    + split; [intros _|reflexivity].
      apply prefix_app in P. destruct P as [post P]. now exists "", post.
    + split; [discriminate|]. intros [pre [post H]].
      destruct pre; [|discriminate]. simpl in H.
      assert (prefix a "" = true) by (apply prefix_app; now exists post).
      congruence.
  - destruct (prefix a (String d b)) eqn:P.
    + split; [intros _|reflexivity].
      apply prefix_app in P. destruct P as [post P]. now exists "", post.
    + rewrite IH. split.
      * intros [pre [post H]]. exists (String d pre), post. now rewrite H.
      * intros [pre [post H]]. destruct pre as [|c pre].
        -- simpl in H.
           assert (prefix a (String d b) = true)
             by (apply prefix_app; now exists post).
           congruence.
        -- inversion H. now exists pre, post.
Qed.

Lemma contains_empty (t : string) : contains "" t = true.
Proof. destruct t; reflexivity. Qed.

Lemma first_match_spec (name : string) (ks : list string) :
  match first_match name ks with
  | Some k =>
      exists before after,
        ks = (before ++ k :: after)%list
        /\ is_substring name k
        /\ Forall (fun k' => ~ is_substring name k') before
  | None => Forall (fun k' => ~ is_substring name k') ks
  end.
Proof.
  induction ks as [|t rest IH]; simpl.
  - constructor.
  - destruct (contains name t) eqn:C.
    + exists [], rest. repeat split.
      * now apply contains_spec.
      * constructor.
    + assert (N : ~ is_substring name t).
      { intros H. apply contains_spec in H. congruence. }
      destruct (first_match name rest) as [k|].
      * destruct IH as [before [after [E [S F]]]].
        exists (t :: before), after. repeat split.
        -- now rewrite E.
        -- exact S.
        -- now constructor.
      * now constructor.
Qed.

(** C3: [find_team] lower-cases the query and returns the first key, in the
    table's iteration order, that contains it as a substring, and [None]
    when no key does; the answer depends on the query only through its
    lower-cased form, so "ARSENAL" and "arsenal" resolve alike. *)
Theorem find_team_first_match
  (lower : string -> string) (query : string) (standings : table) :
  match find_team lower query standings with
  | Some k =>
      exists before after,
        keys standings = (before ++ k :: after)%list
        /\ is_substring (lower query) k
        /\ Forall (fun k' => ~ is_substring (lower query) k') before
  | None =>
      Forall (fun k' => ~ is_substring (lower query) k') (keys standings)
  end
  /\ (forall query', lower query' = lower query ->
        find_team lower query' standings = find_team lower query standings)
  /\ find_team ascii_lower "ARSENAL" standings
     = find_team ascii_lower "arsenal" standings.
Proof.
  split; [|split].
  - unfold find_team. apply first_match_spec.
  - intros query' E. unfold find_team. now rewrite E.
  - reflexivity.
Qed.

Lemma find_team_first_match_witness :
  find_team ascii_lower "ARSENAL" sample_table = Some "arsenal fc"
  /\ find_team ascii_lower "Arsenal" sample_table
     = find_team ascii_lower "arsenal" sample_table
  /\ find_team ascii_lower "zzz" sample_table = None.
Proof.
  split; [reflexivity|]. split; [|reflexivity].
  destruct (find_team_first_match ascii_lower "arsenal" sample_table)
    as [_ [H _]].
  apply H. reflexivity.
Defined.

End Resolver.

(** * Insertion-ordered dictionaries *)

Module Dict.

Lemma assoc_dict_set (k k' : string) (v : entry) (d : table) :
  assoc k' (dict_set k v d) = if String.eqb k' k then Some v else assoc k' d.
Proof.
  induction d as [|[k0 v0] d IH]; simpl.
  - reflexivity.
  - destruct (String.eqb k k0) eqn:E; simpl.
    + apply String.eqb_eq in E. subst k0.
      destruct (String.eqb k' k); reflexivity.
    + destruct (String.eqb k' k0) eqn:E0.
      * apply String.eqb_eq in E0. subst k0.
        destruct (String.eqb k' k) eqn:E1; [|reflexivity].
        apply String.eqb_eq in E1. subst k'.
        rewrite String.eqb_refl in E. discriminate.
      * exact IH.
Qed.

Lemma keys_dict_set_in (k : string) (v : entry) (d : table) :
  In k (keys d) -> keys (dict_set k v d) = keys d.
Proof.
  induction d as [|[k0 v0] d IH]; simpl; [contradiction|].
  intros H. destruct (String.eqb k k0) eqn:E; simpl.
  - apply String.eqb_eq in E. now subst.
  - f_equal. apply IH. destruct H as [H|H]; [|exact H].
    subst k0. rewrite String.eqb_refl in E. discriminate.
Qed.

Lemma dict_set_fresh (k : string) (v : entry) (d : table) :
  ~ In k (keys d) -> dict_set k v d = (d ++ [(k, v)])%list.
Proof.
  induction d as [|[k0 v0] d IH]; simpl; [reflexivity|].
  intros H. destruct (String.eqb k k0) eqn:E.
  - apply String.eqb_eq in E. subst k0. exfalso. apply H. now left.
  - f_equal. apply IH. intros C. apply H. now right.
Qed.

Lemma keys_dict_set (k : string) (v : entry) (d : table) :
  keys (dict_set k v d)
  = if in_dec string_dec k (keys d) then keys d else (keys d ++ [k])%list.
Proof.
  destruct (in_dec string_dec k (keys d)) as [I|N].
  - now apply keys_dict_set_in.
  - rewrite dict_set_fresh by exact N. unfold keys. now rewrite map_app.
Qed.

Lemma NoDup_dict_set (k : string) (v : entry) (d : table) :
  NoDup (keys d) -> NoDup (keys (dict_set k v d)).
Proof.
  intros H. rewrite keys_dict_set.
  destruct (in_dec string_dec k (keys d)) as [I|N]; [exact H|].
  apply NoDup_app; [exact H|repeat constructor; intros []|].
  intros x Hx [<-|[]]. contradiction.
Qed.

Lemma In_keys_dict_set (k x : string) (v : entry) (d : table) :
  In x (keys (dict_set k v d)) <-> x = k \/ In x (keys d).
Proof.
  rewrite keys_dict_set.
  destruct (in_dec string_dec k (keys d)) as [I|N].
  - split; [now right|]. intros [->|H]; assumption.
  - rewrite in_app_iff. simpl. split.
    + intros [H|[<-|[]]]; [now right|now left].
    + intros [->|H]; [right; now left|now left].
Qed.

Lemma NoDup_insert_all (kes : list (string * entry)) (acc : table) :
  NoDup (keys acc) -> NoDup (keys (insert_all kes acc)).
Proof.
  revert acc. induction kes as [|[k v] kes IH]; intros acc H; simpl.
  - exact H.
  - apply IH. now apply NoDup_dict_set.
Qed.

Lemma In_keys_insert_all (kes : list (string * entry)) (acc : table)
    (x : string) :
  In x (keys (insert_all kes acc)) <-> In x (map fst kes) \/ In x (keys acc).
Proof.
  revert acc. induction kes as [|[k v] kes IH]; intros acc; simpl.
  - tauto.
  - unfold insert_all in IH. rewrite IH, In_keys_dict_set. simpl.
    intuition congruence.
Qed.

(** The binding of a key is the one of the last row that carries it. *)
Lemma assoc_insert_all (kes : list (string * entry)) (acc : table)
    (k : string) :
  assoc k (insert_all kes acc)
  = match assoc k (rev kes) with
    | Some v => Some v
    | None => assoc k acc
    end.
Proof.
  assert (A : forall (l1 l2 : list (string * entry)),
             assoc k (l1 ++ l2)%list
             = match assoc k l1 with
               | Some v => Some v
               | None => assoc k l2
               end).
  { induction l1 as [|[k0 v0] l1 IH1]; intros l2; simpl; [reflexivity|].
    destruct (String.eqb k k0); [reflexivity|apply IH1]. }
  revert acc. induction kes as [|[k0 v0] kes IH]; intros acc; simpl.
  - reflexivity.
  - unfold insert_all in IH. rewrite IH, A, assoc_dict_set. simpl.
    destruct (assoc k (rev kes)); [reflexivity|].
    destruct (String.eqb k k0); reflexivity.
Qed.

Lemma insert_all_fresh (kes : list (string * entry)) (acc : table) :
  NoDup (keys acc ++ map fst kes) -> insert_all kes acc = (acc ++ kes)%list.
Proof.
  revert acc. induction kes as [|[k v] kes IH]; intros acc H; simpl.
  - now rewrite app_nil_r.
  - simpl in H. pose proof (NoDup_remove_2 _ _ _ H) as N.
    rewrite dict_set_fresh.
    + unfold insert_all in IH. rewrite IH.
      * now rewrite <- app_assoc.
      * unfold keys. rewrite map_app. simpl. rewrite <- app_assoc. exact H.
    + intros C. apply N. apply in_or_app. now left.
Qed.

Lemma length_insert_all (kes : list (string * entry)) :
  (List.length (insert_all kes []) <= List.length kes)%nat.
Proof.
  pose proof (NoDup_insert_all kes [] (NoDup_nil _)) as N.
  replace (List.length (insert_all kes []))
    with (List.length (keys (insert_all kes [])))
    by apply length_map.
  replace (List.length kes) with (List.length (map fst kes))
    by apply length_map.
  apply NoDup_incl_length; [exact N|].
  intros x Hx. apply In_keys_insert_all in Hx. destruct Hx as [H|[]].
  exact H.
Qed.

Lemma length_insert_all_eq (kes : list (string * entry)) :
  List.length (insert_all kes []) = List.length kes <-> NoDup (map fst kes).
Proof.
  split.
  - intros E.
    apply NoDup_incl_NoDup with (l := keys (insert_all kes [])).
    + apply NoDup_insert_all. constructor.
    + unfold keys. rewrite !length_map. lia.
    + intros x Hx. apply In_keys_insert_all in Hx. destruct Hx as [H|[]].
      exact H.
  - intros N. rewrite insert_all_fresh; [reflexivity|exact N].
Qed.

Lemma assoc_In_keys {V : Type} (k : string) (d : list (string * V)) :
  In k (map fst d) -> exists v, assoc k d = Some v.
Proof.
  induction d as [|[k0 v0] d IH]; simpl; [contradiction|].
  intros H. destruct (String.eqb k k0) eqn:E; [now exists v0|].
  apply IH. destruct H as [H|H]; [|exact H].
  subst k0. rewrite String.eqb_refl in E. discriminate.
Qed.

End Dict.

(** * The standings fetcher *)

Module Standings.

Local Open Scope Z_scope.

Section Fetch.

Variable lower : string -> string.
Variable API_TOKEN : option string.
Variable requests_get : string -> option string -> http_result.

Lemma sum_played_ok (rows : list json) (vs : list Z) (acc : Z) :
  Forall2 row_played rows vs -> sum_played rows acc = Ok (acc + total vs).
Proof.
  intros H. revert acc. induction H as [|row v rows vs [j [G A]] _ IH];
    intros acc; simpl.
  - f_equal. lia.
  - rewrite G. simpl. rewrite A. simpl. rewrite IH. f_equal. lia.
Qed.

Lemma sum_played_inv (rows : list json) (acc t : Z) :
  sum_played rows acc = Ok t ->
  exists vs, Forall2 row_played rows vs /\ t = acc + total vs.
Proof.
  revert acc. induction rows as [|row rows IH]; intros acc; simpl.
  - intros [= <-]. exists []. split; [constructor|simpl; lia].
  - destruct (getitem row "playedGames") as [j|] eqn:G; [|discriminate].
    simpl. destruct (as_int j) as [v|] eqn:A; [|discriminate]. simpl.
    intros H. destruct (IH _ H) as [vs [F E]].
    exists (v :: vs). split.
    + constructor; [now exists j|exact F].
    + simpl. lia.
Qed.

Lemma row_played_fun (row : json) (v v' : Z) :
  row_played row v -> row_played row v' -> v = v'.
Proof.
  intros [j [G A]] [j' [G' A']]. congruence.
Qed.

Lemma rows_played_fun (rows : list json) (vs vs' : list Z) :
  Forall2 row_played rows vs -> Forall2 row_played rows vs' -> vs = vs'.
Proof.
  intros H. revert vs'. induction H as [|row v rows vs R _ IH];
    intros vs' H'; inversion H'; subst; [reflexivity|].
  f_equal; [eapply row_played_fun; eassumption|now apply IH].
Qed.

Lemma build_table_ok (rows : list json) (kes : list (string * entry))
    (acc : table) :
  Forall2 (row_entry lower) rows kes ->
  build_table lower rows acc = Ok (insert_all kes acc).
Proof.
  intros H. revert acc.
  induction H as [|row [k e] rows kes [t [nm [G1 [G2 [K [G3 [G4 G5]]]]]]] _ IH];
    intros acc; simpl in *.
  - reflexivity.
  - rewrite G1. simpl. rewrite G2. simpl. rewrite G3. simpl.
    rewrite G4. simpl. rewrite G5. simpl. rewrite <- K.
    destruct e. apply IH.
Qed.

Lemma build_table_inv (rows : list json) (acc tbl : table) :
  build_table lower rows acc = Ok tbl ->
  exists kes, Forall2 (row_entry lower) rows kes /\ tbl = insert_all kes acc.
Proof.
  revert acc. induction rows as [|row rows IH]; intros acc; simpl.
  - intros [= <-]. exists []. split; [constructor|reflexivity].
  - destruct (getitem row "team") as [t|] eqn:G1; [|discriminate]. simpl.
    destruct (getitem t "name") as [nm|] eqn:G2; [|discriminate]. simpl.
    destruct nm as [| | |nm| |]; try discriminate. simpl.
    destruct (getitem row "position") as [pos|] eqn:G3; [|discriminate].
    simpl.
    destruct (getitem row "playedGames") as [pl|] eqn:G4; [|discriminate].
    simpl.
    destruct (getitem row "points") as [pts|] eqn:G5; [|discriminate].
    simpl. intros H. destruct (IH _ H) as [kes [F E]].
    exists ((lower nm, {| position := pos; played := pl; points := pts |})
              :: kes).
    split; [|exact E].
    constructor; [|exact F]. exists t, nm. simpl. tauto.
Qed.

(** On a successful answer [get_standings] is this chain of computations. *)
Lemma get_standings_rows (code : string) (rows : list json) :
  upstream_rows API_TOKEN requests_get code rows ->
  get_standings lower API_TOKEN requests_get code
  = (let total_teams := Z.of_nat (List.length rows) in
     total_played <- sum_played rows 0 ;;
     avg_played <- py_truediv total_played total_teams ;;
     progress <- py_float_div_int avg_played ((total_teams - 1) * 2) ;;
     tbl <- build_table lower rows [] ;;
     Ok (tbl, total_teams, progress)).
Proof.
  intros [sc [text [data [s [g [R [K [G1 [G2 G3]]]]]]]]].
  unfold get_standings. fold (standings_url code). rewrite R, K. simpl.
  rewrite G1. simpl. rewrite G2. simpl. rewrite G3. reflexivity.
Qed.

(** A successful [get_standings] had such an answer, and each step worked. *)
Lemma get_standings_inv (code : string) (tbl : table) (n : Z) (p : Q) :
  get_standings lower API_TOKEN requests_get code = Ok (tbl, n, p) ->
  exists rows total_played avg_played,
    upstream_rows API_TOKEN requests_get code rows
    /\ n = Z.of_nat (List.length rows)
    /\ sum_played rows 0 = Ok total_played
    /\ py_truediv total_played n = Ok avg_played
    /\ py_float_div_int avg_played ((n - 1) * 2) = Ok p
    /\ build_table lower rows [] = Ok tbl.
Proof.
  unfold get_standings. fold (standings_url code).
  destruct (requests_get (standings_url code) API_TOKEN)
    as [msg|sc text body] eqn:R; [discriminate|].
  destruct (ok sc) eqn:K; simpl; [|discriminate].
  destruct body as [data|]; simpl; [|discriminate].
  destruct (getitem data "standings") as [s|] eqn:G1; simpl; [|discriminate].
  destruct (getitem_0 s) as [g|] eqn:G2; simpl; [|discriminate].
  destruct (getitem g "table") as [standings|] eqn:G3; simpl; [|discriminate].
  destruct standings as [| | |str|rows|members]; simpl; try discriminate.
  - destruct str; simpl; discriminate.
  - destruct (sum_played rows 0) as [t|] eqn:S; simpl; [|discriminate].
    destruct (py_truediv t (Z.of_nat (List.length rows))) as [avg|] eqn:D;
      simpl; [|discriminate].
    destruct (py_float_div_int avg ((Z.of_nat (List.length rows) - 1) * 2))
      as [pr|] eqn:F; simpl; [|discriminate].
    destruct (build_table lower rows []) as [tb|] eqn:B; simpl; [|discriminate].
    intros [= <- <- <-].
    exists rows, t, avg. repeat split; try assumption.
    exists sc, text, data, s, g. auto.
  - destruct members as [|[k v] members]; simpl; discriminate.
Qed.

(** C7 (amended): [total_teams] is the number of rows of the upstream table.
    The table returned holds one entry per distinct lower-cased team name,
    with the fields of the last row of that name, so it has at most
    [total_teams] entries, and exactly that many iff the lower-cased names
    are pairwise distinct; it is then keyed row by row. *)
Theorem get_standings_total_teams
    (code : string) (tbl : table) (n : Z) (p : Q) :
  get_standings lower API_TOKEN requests_get code = Ok (tbl, n, p) ->
  exists rows kes,
    upstream_rows API_TOKEN requests_get code rows
    /\ n = Z.of_nat (List.length rows)
    /\ Forall2 (row_entry lower) rows kes
    /\ tbl = insert_all kes []
    /\ (forall k, assoc k tbl = assoc k (rev kes))
    /\ Z.of_nat (List.length tbl) <= n
    /\ (Z.of_nat (List.length tbl) = n <-> NoDup (map fst kes))
    /\ (NoDup (map fst kes) -> tbl = kes).
Proof.
  intros H.
  destruct (get_standings_inv _ _ _ _ H)
    as [rows [t [avg [U [N [_ [_ [_ B]]]]]]]].
  destruct (build_table_inv _ _ _ B) as [kes [F E]].
  pose proof (Forall2_length F) as L.
  exists rows, kes. subst tbl n.
  repeat (split; [assumption || reflexivity|]).
  split; [|split; [|split]].
  - intros k. rewrite Dict.assoc_insert_all.
    now destruct (assoc k (rev kes)).
  - pose proof (Dict.length_insert_all kes). lia.
  - rewrite <- Dict.length_insert_all_eq. lia.
  - intros D. now rewrite Dict.insert_all_fresh.
Qed.

Lemma total_mono (vs vs' : list Z) :
  Forall2 Z.le vs vs' -> total vs <= total vs'.
Proof. induction 1; simpl; lia. Qed.

Lemma total_nonneg (vs : list Z) :
  Forall (fun v => 0 <= v) vs -> 0 <= total vs.
Proof. induction 1; simpl; lia. Qed.

Lemma total_le (vs : list Z) (m : Z) :
  Forall (fun v => v <= m) vs -> total vs <= m * Z.of_nat (List.length vs).
Proof. induction 1; simpl List.length; simpl total; lia. Qed.

Lemma some_above (vs : list Z) (m : Z) :
  ~ Forall (fun v => v <= m) vs -> Exists (fun v => m < v) vs.
Proof.
  induction vs as [|v vs IH]; intros N.
  - exfalso. apply N. constructor.
  - destruct (Z_le_gt_dec v m) as [L|G].
    + right. apply IH. intros F. apply N. now constructor.
    + left. lia.
Qed.

(** The two divisions of [get_standings] succeed on a league of at least two
    teams, whatever the (moderate) numbers of games. *)
Lemma progress_defined (t n : Z) :
  2 <= n -> n <= 2 ^ 1022 -> Z.abs t <= 2 ^ 1023 ->
  py_truediv t n = Ok (int_truediv t n)
  /\ py_float_div_int (int_truediv t n) ((n - 1) * 2)
     = Ok (fdiv (int_truediv t n) (float_of_int ((n - 1) * 2))).
Proof.
  intros Hn Hb Ht. split.
  - unfold py_truediv. destruct (Z.eqb_spec n 0) as [->|_]; [lia|].
    unfold int_truediv at 1. rewrite FloatFacts.no_overflow; [reflexivity| |].
    + rewrite <- FloatFacts.huge_Z, <- inject_Z_opp.
      apply FloatFacts.Zdiv_Q_ge; nia.
    + rewrite <- FloatFacts.huge_Z. apply FloatFacts.Zdiv_Q_le; nia.
  - unfold py_float_div_int.
    pose proof (FloatFacts.float_of_int_ge_2 ((n - 1) * 2) ltac:(lia)) as G.
    unfold float_of_int at 1. rewrite FloatFacts.no_overflow.
    + destruct (Qeq_bool (float_of_int ((n - 1) * 2)) 0) eqn:E;
        [|reflexivity].
      apply Qeq_bool_iff in E. rewrite E in G. exfalso.
      apply (Qlt_not_le 0 2); [reflexivity|exact G].
    + rewrite <- FloatFacts.huge_Z, <- inject_Z_opp, <- Zle_Qle. lia.
    + rewrite <- FloatFacts.huge_Z, <- Zle_Qle.
      replace (2 ^ 1023) with (2 ^ 1022 * 2) by reflexivity. lia.
Qed.

Lemma py_truediv_inv (a b : Z) (r : Q) :
  py_truediv a b = Ok r -> b <> 0 /\ r = int_truediv a b.
Proof.
  unfold py_truediv. destruct (Z.eqb_spec b 0); [discriminate|].
  destruct (overflows _); [discriminate|]. intros [= <-]. now split.
Qed.

Lemma py_float_div_int_inv (x : Q) (m : Z) (r : Q) :
  py_float_div_int x m = Ok r ->
  ~ (float_of_int m == 0)%Q /\ r = fdiv x (float_of_int m).
Proof.
  unfold py_float_div_int. destruct (overflows _); [discriminate|].
  destruct (Qeq_bool (float_of_int m) 0) eqn:E; [discriminate|].
  intros [= <-]. split; [|reflexivity].
  intros C. apply Qeq_bool_iff in C. congruence.
Qed.

Lemma upstream_rows_fun (code : string) (rows rows' : list json) :
  upstream_rows API_TOKEN requests_get code rows ->
  upstream_rows API_TOKEN requests_get code rows' -> rows = rows'.
Proof.
  intros [sc [text [data [s [g [R [_ [G1 [G2 G3]]]]]]]]].
  intros [sc' [text' [data' [s' [g' [R' [_ [G1' [G2' G3']]]]]]]]].
  rewrite R in R'. injection R' as _ _ <-.
  rewrite G1 in G1'. injection G1' as <-.
  rewrite G2 in G2'. injection G2' as <-.
  rewrite G3 in G3'. now injection G3'.
Qed.

Section Arithmetic.

Variable n : Z.
Hypothesis n_ge_2 : 2 <= n.

Lemma divisor_pos : (0 < float_of_int ((n - 1) * 2))%Q.
Proof.
  pose proof (FloatFacts.float_of_int_ge_2 ((n - 1) * 2) ltac:(lia)) as G.
  lra.
Qed.

(** More games played means no less progress. *)
Lemma progress_mono (t t' : Z) :
  t <= t' ->
  (fdiv (int_truediv t n) (float_of_int ((n - 1) * 2))
   <= fdiv (int_truediv t' n) (float_of_int ((n - 1) * 2)))%Q.
Proof.
  intros H. unfold fdiv, int_truediv.
  apply FloatFacts.RN_mono, FloatFacts.Qdiv_le_r; [apply divisor_pos|].
  apply FloatFacts.RN_mono, FloatFacts.Zdiv_Q_mono; lia.
Qed.

Lemma progress_nonneg (t : Z) :
  0 <= t -> (0 <= fdiv (int_truediv t n) (float_of_int ((n - 1) * 2)))%Q.
Proof.
  intros H. unfold fdiv, int_truediv.
  apply FloatFacts.RN_nonneg.
  apply Qle_shift_div_l; [apply divisor_pos|]. rewrite Qmult_0_l.
  apply FloatFacts.RN_nonneg.
  change 0%Q with (inject_Z 0). apply FloatFacts.Zdiv_Q_ge; lia.
Qed.

(** At most a double round-robin played on average: progress at most 1. *)
Lemma progress_le_1 (t : Z) :
  t <= (n - 1) * 2 * n ->
  (fdiv (int_truediv t n) (float_of_int ((n - 1) * 2)) <= 1)%Q.
Proof.
  intros H. unfold fdiv, int_truediv.
  apply FloatFacts.RN_le_1.
  apply Qle_shift_div_r; [apply divisor_pos|]. rewrite Qmult_1_l.
  unfold float_of_int.
  apply FloatFacts.RN_mono, FloatFacts.Zdiv_Q_le; lia.
Qed.

End Arithmetic.

End Fetch.

(** C9: on a well-formed table of at least two teams (and numbers of games
    within the float range) [get_standings] returns the season progress
    [(sum of playedGames / total_teams) / ((total_teams - 1) * 2)], each
    division rounded to a float; it is non-negative when no team has played
    a negative number of games, at most 1 when no team has played more than
    [(total_teams - 1) * 2] games, hence above 1 only if some team has
    played more, and it does not decrease when teams have played more
    games. *)
Theorem season_progress_properties
    (lower : string -> string) (API_TOKEN : option string)
    (requests_get : string -> option string -> http_result)
    (code : string) (rows : list json) (kes : list (string * entry))
    (vs : list Z) (n : Z) :
  upstream_rows API_TOKEN requests_get code rows ->
  Forall2 (row_entry lower) rows kes ->
  Forall2 row_played rows vs ->
  n = Z.of_nat (List.length rows) ->
  2 <= n -> n <= 2 ^ 1022 -> Z.abs (total vs) <= 2 ^ 1023 ->
  exists tbl p,
    get_standings lower API_TOKEN requests_get code = Ok (tbl, n, p)
    /\ p = fdiv (int_truediv (total vs) n) (float_of_int ((n - 1) * 2))
    /\ (Forall (fun v => 0 <= v) vs -> (0 <= p)%Q)
    /\ (Forall (fun v => v <= (n - 1) * 2) vs -> (p <= 1)%Q)
    /\ ((1 < p)%Q -> Exists (fun v => (n - 1) * 2 < v) vs)
    /\ (forall requests_get' code' rows' vs' tbl' n' p',
          upstream_rows API_TOKEN requests_get' code' rows' ->
          Forall2 row_played rows' vs' ->
          Forall2 Z.le vs vs' ->
          get_standings lower API_TOKEN requests_get' code'
            = Ok (tbl', n', p') ->
          (p <= p')%Q).
Proof.
  intros U F P N Hn Hb Ht.
  destruct (progress_defined (total vs) n Hn Hb Ht) as [D1 D2].
  pose proof (Forall2_length P) as Lv.
  assert (Le1 : Forall (fun v => v <= (n - 1) * 2) vs ->
                (fdiv (int_truediv (total vs) n)
                      (float_of_int ((n - 1) * 2)) <= 1)%Q).
  { intros A. apply progress_le_1; [exact Hn|].
    pose proof (total_le vs _ A). rewrite <- Lv, <- N in *. lia. }
  eexists. eexists. split; [|split; [reflexivity|split; [|split; [|split]]]].
  - rewrite (get_standings_rows lower API_TOKEN requests_get code rows U).
    cbv zeta.
    rewrite (sum_played_ok rows vs 0 P). rewrite <- N. cbn [bind Z.add].
    rewrite D1. cbn [bind]. rewrite D2. cbn [bind].
    rewrite (build_table_ok lower rows kes [] F). reflexivity.
  - intros A. apply progress_nonneg; [exact Hn|now apply total_nonneg].
  - exact Le1.
  - intros G. apply some_above. intros A.
    apply (Qlt_not_le _ _ G). now apply Le1.
  - intros rg' code' rows' vs' tbl' n' p' U' P' L H'.
    destruct (get_standings_inv lower API_TOKEN rg' code' tbl' n' p' H')
      as [rows'' [t' [avg' [U'' [N' [S' [T' [Fd' _]]]]]]]].
    assert (E : rows'' = rows')
      by exact (upstream_rows_fun API_TOKEN rg' code' rows'' rows' U'' U').
    subst rows''.
    rewrite (sum_played_ok rows' vs' 0 P') in S'. injection S' as <-.
    cbn [Z.add] in T'.
    apply py_truediv_inv in T'. destruct T' as [_ ->].
    apply py_float_div_int_inv in Fd'. destruct Fd' as [_ ->].
    assert (En : n' = n).
    { pose proof (Forall2_length P') as Lv'.
      pose proof (Forall2_length L) as Ll. lia. }
    rewrite En. apply progress_mono; [exact Hn|now apply total_mono].
Qed.

Lemma upstream_rows_serve (rows : list json) :
  upstream_rows None (serve rows) "PL" rows.
Proof.
  exists 200, "", (standings_doc rows).
  eexists. eexists. repeat split; reflexivity.
Qed.

Lemma season_progress_properties_witness :
  upstream_rows None (serve two_teams) "PL" two_teams
  /\ Forall2 (row_entry ascii_lower) two_teams two_teams_table
  /\ Forall2 row_played two_teams [1; 1]
  /\ exists tbl p,
       get_standings ascii_lower None (serve two_teams) "PL" = Ok (tbl, 2, p)
       /\ (0 <= p)%Q /\ (p <= 1)%Q /\ (p <= two_teams_later_progress)%Q.
Proof.
  assert (U : upstream_rows None (serve two_teams) "PL" two_teams).
  { exists 200, "", (standings_doc two_teams).
    eexists. eexists. repeat split; reflexivity. }
  assert (F : Forall2 (row_entry ascii_lower) two_teams two_teams_table).
  { repeat constructor; eexists; eexists; repeat split; reflexivity. }
  assert (P : Forall2 row_played two_teams [1; 1]).
  { repeat constructor; eexists; split; reflexivity. }
  split; [exact U|]. split; [exact F|]. split; [exact P|].
  destruct (season_progress_properties ascii_lower None (serve two_teams)
              "PL" two_teams two_teams_table [1; 1] 2 U F P eq_refl)
    as [tbl [p [H [_ [A [B [_ D]]]]]]].
  - vm_compute. discriminate.
  - vm_compute. discriminate.
  - vm_compute. discriminate.
  - exists tbl, p. split; [exact H|]. split; [|split].
    + apply A. repeat constructor; vm_compute; discriminate.
    + apply B. repeat constructor; vm_compute; discriminate.
    + apply (D (serve two_teams_later) "PL" two_teams_later [2; 1]
               two_teams_later_table 2 two_teams_later_progress).
      * exists 200, "", (standings_doc two_teams_later).
        eexists. eexists. repeat split; reflexivity.
      * repeat constructor; eexists; split; reflexivity.
      * repeat constructor; vm_compute; discriminate.
      * vm_compute. reflexivity.
Defined.

(** C7, as stated, fails: two rows whose names differ only in case give
    [total_teams = 2] and a table of one entry. *)
Lemma total_teams_not_table_size :
  exists tbl n p,
    get_standings ascii_lower None (serve same_name_twice) "PL"
      = Ok (tbl, n, p)
    /\ n = 2 /\ List.length tbl = 1%nat /\ n <> Z.of_nat (List.length tbl).
Proof.
  do 3 eexists. split; [vm_compute; reflexivity|].
  split; [reflexivity|]. split; [reflexivity|]. discriminate.
Qed.

Lemma get_standings_total_teams_witness :
  get_standings ascii_lower None (serve two_teams) "PL"
    = Ok (two_teams_table, 2, two_teams_progress)
  /\ exists rows kes,
       upstream_rows None (serve two_teams) "PL" rows
       /\ 2 = Z.of_nat (List.length rows)
       /\ Forall2 (row_entry ascii_lower) rows kes
       /\ two_teams_table = insert_all kes []
       /\ (forall k, assoc k two_teams_table = assoc k (rev kes))
       /\ Z.of_nat (List.length two_teams_table) <= 2
       /\ (Z.of_nat (List.length two_teams_table) = 2
           <-> NoDup (map fst kes))
       /\ (NoDup (map fst kes) -> two_teams_table = kes).
Proof.
  assert (H : get_standings ascii_lower None (serve two_teams) "PL"
              = Ok (two_teams_table, 2, two_teams_progress))
    by (vm_compute; reflexivity).
  split; [exact H|].
  exact (get_standings_total_teams ascii_lower None (serve two_teams)
           "PL" two_teams_table 2 two_teams_progress H).
Defined.

End Standings.

(** * The request handler *)

Module Handler.

Local Open Scope Z_scope.

Section Handle.

Variable lower : string -> string.
Variable API_TOKEN : option string.
Variable requests_get : string -> option string -> http_result.


(** Whatever [get_standings] raises is answered with status 400. *)
Lemma fetch_failure (league team1 team2 : string) (e : exn) :
  get_standings lower API_TOKEN requests_get league = Err e ->
  get_match_info lower API_TOKEN requests_get league team1 team2
  = Ok {| status := 400; body_content := ErrorContent e |}.
Proof.
  unfold get_match_info. now intros ->.
Qed.

Lemma connection_failure (league : string) (msg : string) :
  requests_get (standings_url league) API_TOKEN = ConnectionFailed msg ->
  get_standings lower API_TOKEN requests_get league = Err (RequestException msg).
Proof.
  unfold get_standings. fold (standings_url league). now intros ->.
Qed.

Lemma upstream_status_failure (league : string) (sc : Z) (text : string)
    (body : result json) :
  requests_get (standings_url league) API_TOKEN = Response sc text body ->
  ok sc = false ->
  get_standings lower API_TOKEN requests_get league
  = Err (Exception ("API request failed: " ++ str_int sc ++ " - " ++ text)).
Proof.
  unfold get_standings. fold (standings_url league).
  now intros -> ->.
Qed.

Lemma malformed_body (league : string) (sc : Z) (text : string) (e : exn) :
  requests_get (standings_url league) API_TOKEN = Response sc text (Err e) ->
  ok sc = true ->
  get_standings lower API_TOKEN requests_get league = Err e.
Proof.
  unfold get_standings. fold (standings_url league).
  now intros -> ->.
Qed.

Lemma not_found (league team1 team2 : string) (tbl : table) (n : Z) (p : Q) :
  get_standings lower API_TOKEN requests_get league = Ok (tbl, n, p) ->
  find_team lower team1 tbl = None \/ find_team lower team2 tbl = None ->
  get_match_info lower API_TOKEN requests_get league team1 team2
  = Ok {| status := 404;
          body_content :=
            NotFoundContent "One or both teams were not found." (keys tbl) |}.
Proof.
  unfold get_match_info. intros -> [H|H]; rewrite H; simpl.
  - reflexivity.
  - now rewrite orb_true_r.
Qed.

Lemma first_match_In (name : string) (ks : list string) (k : string) :
  first_match name ks = Some k -> In k ks.
Proof.
  induction ks as [|t rest IH]; simpl; [discriminate|].
  destruct (contains name t); [intros [= ->]; now left|].
  intros H. right. now apply IH.
Qed.

Lemma falsy_found (k : string) : k <> "" -> falsy (Some k) = false.
Proof. destruct k; [congruence|reflexivity]. Qed.

(** Both names resolved to non-empty keys: the handler goes on to classify. *)
Lemma found (league team1 team2 : string) (tbl : table) (n : Z) (p : Q)
    (k1 k2 : string) :
  get_standings lower API_TOKEN requests_get league = Ok (tbl, n, p) ->
  find_team lower team1 tbl = Some k1 -> k1 <> "" ->
  find_team lower team2 tbl = Some k2 -> k2 <> "" ->
  exists e1 e2,
    assoc k1 tbl = Some e1 /\ assoc k2 tbl = Some e2
    /\ get_match_info lower API_TOKEN requests_get league team1 team2
       = (p1 <- as_int (position e1) ;;
          p2 <- as_int (position e2) ;;
          Ok {| status := 200;
                body_content := MatchContent {|
                  league_code := league;
                  team1_info := {| name := k1;
                                   team_position := position e1;
                                   team_points := points e1 |};
                  team2_info := {| name := k2;
                                   team_position := position e2;
                                   team_points := points e2 |};
                  importance := match_importance p1 p2 n p;
                  season_progress :=
                    format_1f (fmul p (float_of_int 100)) ++ "%" |} |}).
Proof.
  intros H F1 N1 F2 N2.
  destruct (Dict.assoc_In_keys k1 tbl) as [e1 A1].
  { apply (first_match_In (lower team1)). exact F1. }
  destruct (Dict.assoc_In_keys k2 tbl) as [e2 A2].
  { apply (first_match_In (lower team2)). exact F2. }
  exists e1, e2. split; [exact A1|]. split; [exact A2|].
  unfold get_match_info. rewrite H, F1, F2.
  rewrite (falsy_found k1 N1), (falsy_found k2 N2). simpl.
  unfold lookup. rewrite A1, A2. reflexivity.
Qed.

(** C8: when the upstream table has exactly one row the handler answers
    with status 400 and the error raised by [get_standings]; that error is
    the division by zero whenever the row has a numeric [playedGames]. *)
Theorem single_team_league (league team1 team2 : string) (row : json) :
  upstream_rows API_TOKEN requests_get league [row] ->
  (exists e,
     get_match_info lower API_TOKEN requests_get league team1 team2
     = Ok {| status := 400; body_content := ErrorContent e |})
  /\ (forall v, row_played row v -> Z.abs v <= 2 ^ 1023 ->
        get_match_info lower API_TOKEN requests_get league team1 team2
        = Ok {| status := 400;
                body_content := ErrorContent ZeroDivisionError |}).
Proof.
  intros U.
  pose proof (Standings.get_standings_rows lower API_TOKEN requests_get
                league [row] U) as E.
  cbv zeta in E. cbn [List.length Z.of_nat Pos.of_succ_nat] in E.
  assert (Z0 : forall avg, py_float_div_int avg ((1 - 1) * 2)
                           = Err ZeroDivisionError).
  { intros avg. reflexivity. }
  split.
  - assert (X : exists e,
               get_standings lower API_TOKEN requests_get league = Err e).
    { rewrite E. destruct (sum_played [row] 0) as [t|e]; [|now exists e].
      cbn [bind]. destruct (py_truediv t 1) as [avg|e]; [|now exists e].
      cbn [bind]. rewrite Z0. now eexists. }
    destruct X as [e X]. exists e. now apply fetch_failure.
  - intros v [j [G A]] B. apply fetch_failure. rewrite E.
    cbn [sum_played]. rewrite G. cbn [bind]. rewrite A. cbn [bind Z.add].
    unfold py_truediv. cbn [Z.eqb].
    unfold int_truediv at 1. rewrite FloatFacts.no_overflow.
    + cbn [bind]. now rewrite Z0.
    + rewrite <- FloatFacts.huge_Z, <- inject_Z_opp.
      apply FloatFacts.Zdiv_Q_ge; lia.
    + rewrite <- FloatFacts.huge_Z. apply FloatFacts.Zdiv_Q_le; lia.
Qed.

Lemma assoc_In (k : string) (d : table) (e : entry) :
  assoc k d = Some e -> In (k, e) d.
Proof.
  induction d as [|[k0 e0] d IH]; simpl; [discriminate|].
  destruct (String.eqb k k0) eqn:E.
  - apply String.eqb_eq in E. intros [= ->]. left. now subst.
  - intros H. right. now apply IH.
Qed.

Lemma empty_query_first (t : table) (k : string) :
  lower "" = "" ->
  hd_error (keys t) = Some k -> find_team lower "" t = Some k.
Proof.
  intros L H. unfold find_team. rewrite L.
  destruct (keys t) as [|k' ks]; [discriminate|].
  injection H as ->. simpl. now rewrite Resolver.contains_empty.
Qed.

(** C10 (amended): on a non-empty table the empty query resolves to the
    first key.  Hence, when the fetch succeeds, the first key is not the
    empty string and each team parameter is empty or resolves to a non-empty
    key, the handler never produces the 404 response: whatever response it
    gives has status 200; and when moreover the positions stored in the
    table are numbers it does answer, with status 200. *)
Theorem empty_query_takes_first_key
    (league team1 team2 : string) (tbl : table) (n : Z) (p : Q)
    (k0 : string) :
  lower "" = "" ->
  get_standings lower API_TOKEN requests_get league = Ok (tbl, n, p) ->
  hd_error (keys tbl) = Some k0 -> k0 <> "" ->
  empty_or_found lower team1 tbl ->
  empty_or_found lower team2 tbl ->
  (forall t k, hd_error (keys t) = Some k -> find_team lower "" t = Some k)
  /\ (forall r,
        get_match_info lower API_TOKEN requests_get league team1 team2 = Ok r ->
        status r = 200)
  /\ (numeric_positions tbl ->
      exists r,
        get_match_info lower API_TOKEN requests_get league team1 team2 = Ok r
        /\ status r = 200).
Proof.
  intros L H K0 N0 E1 E2.
  split; [intros t k; now apply empty_query_first|].
  assert (R : forall q, empty_or_found lower q tbl ->
                exists k, find_team lower q tbl = Some k /\ k <> "").
  { intros q [->|X]; [|exact X]. exists k0. split; [|exact N0].
    now apply empty_query_first. }
  destruct (R _ E1) as [k1 [F1 N1]]. destruct (R _ E2) as [k2 [F2 N2]].
  destruct (found league team1 team2 tbl n p k1 k2 H F1 N1 F2 N2)
    as [e1 [e2 [A1 [A2 Eq]]]].
  rewrite Eq. split.
  - intros r. destruct (as_int (position e1)); [|discriminate].
    destruct (as_int (position e2)); [|discriminate].
    simpl. now intros [= <-].
  - intros P. unfold numeric_positions in P. rewrite Forall_forall in P.
    destruct (P _ (assoc_In _ _ _ A1)) as [z1 Z1].
    destruct (P _ (assoc_In _ _ _ A2)) as [z2 Z2].
    simpl in Z1, Z2. rewrite Z1, Z2. simpl. eexists. split; reflexivity.
Qed.

End Handle.

(** C10, as stated, fails: an empty [team1] does not keep the handler from
    answering 404 when [team2] matches no key. *)
Lemma empty_query_can_get_404 :
  find_team ascii_lower "" two_teams_table = Some "arsenal"
  /\ get_match_info ascii_lower None (serve two_teams) "PL" "" "zzz"
     = Ok {| status := 404;
             body_content :=
               NotFoundContent "One or both teams were not found."
                               ["arsenal"; "chelsea"] |}.
Proof. split; vm_compute; reflexivity. Qed.

Lemma empty_query_takes_first_key_witness :
  get_standings ascii_lower None (serve two_teams) "PL"
    = Ok (two_teams_table, 2, two_teams_progress)
  /\ empty_or_found ascii_lower "" two_teams_table
  /\ empty_or_found ascii_lower "Chel" two_teams_table
  /\ numeric_positions two_teams_table
  /\ exists r,
       get_match_info ascii_lower None (serve two_teams) "PL" "" "Chel" = Ok r
       /\ status r = 200.
Proof.
  assert (H : get_standings ascii_lower None (serve two_teams) "PL"
              = Ok (two_teams_table, 2, two_teams_progress))
    by (vm_compute; reflexivity).
  assert (P : numeric_positions two_teams_table).
  { repeat constructor; eexists; reflexivity. }
  assert (E1 : empty_or_found ascii_lower "" two_teams_table)
    by (now left).
  assert (E2 : empty_or_found ascii_lower "Chel" two_teams_table).
  { right. exists "chelsea". split; [reflexivity|discriminate]. }
  split; [exact H|]. split; [exact E1|]. split; [exact E2|].
  split; [exact P|].
  destruct (empty_query_takes_first_key ascii_lower None (serve two_teams)
              "PL" "" "Chel" two_teams_table 2 two_teams_progress "arsenal"
              eq_refl H eq_refl ltac:(discriminate) E1 E2)
    as [_ [_ D]].
  exact (D P).
Defined.

(** The failing input of C2: a row whose position is [null] passes
    [get_standings], both teams resolve, and the comparison of the position
    raises [TypeError] outside the [try] block: no 400, no 200. *)
Lemma null_position_escapes :
  (exists tbl p,
     get_standings ascii_lower None (serve null_position) "PL"
       = Ok (tbl, 2, p)
     /\ find_team ascii_lower "Arsenal" tbl = Some "arsenal"
     /\ find_team ascii_lower "Chelsea" tbl = Some "chelsea")
  /\ get_match_info ascii_lower None (serve null_position)
       "PL" "Arsenal" "Chelsea"
     = Err TypeError.
Proof.
  split; [|vm_compute; reflexivity].
  do 2 eexists. split; [vm_compute; reflexivity|].
  split; reflexivity.
Qed.

(** A team whose name is the empty string is found by [find_team] and yet
    reported as not found. *)
Lemma empty_key_reported_missing :
  (exists tbl p,
     get_standings ascii_lower None (serve nameless_first) "PL"
       = Ok (tbl, 2, p)
     /\ find_team ascii_lower "" tbl = Some ""
     /\ find_team ascii_lower "Chelsea" tbl = Some "chelsea")
  /\ get_match_info ascii_lower None (serve nameless_first) "PL" "" "Chelsea"
     = Ok {| status := 404;
             body_content :=
               NotFoundContent "One or both teams were not found."
                               [""; "chelsea"] |}.
Proof.
  split; [|vm_compute; reflexivity].
  do 2 eexists. split; [vm_compute; reflexivity|].
  split; reflexivity.
Qed.

Lemma single_team_league_witness :
  upstream_rows None (serve one_team) "PL" one_team
  /\ get_match_info ascii_lower None (serve one_team) "PL" "Arsenal" "Chelsea"
     = Ok {| status := 400; body_content := ErrorContent ZeroDivisionError |}.
Proof.
  pose proof (Standings.upstream_rows_serve one_team) as U.
  split; [exact U|].
  destruct (single_team_league ascii_lower None (serve one_team)
              "PL" "Arsenal" "Chelsea" _ U) as [_ H].
  apply (H 5).
  - eexists. split; reflexivity.
  - vm_compute. discriminate.
Defined.

End Handler.

(** * More on the classifier *)

Module Zones.

Local Open Scope Z_scope.

(** X1: two teams that both stand in the first three places meet in a
    "Top clash", whatever the size of the league: the zone is never narrower
    than three places. *)
Theorem podium_is_top_clash (pos1 pos2 total_teams : Z) (progress : Q) :
  pos1 <= 3 -> pos2 <= 3 ->
  match_importance pos1 pos2 total_teams progress
  = " Top clash (" ++ stage_of progress ++ ")".
Proof.
  intros H1 H2. unfold match_importance. set (z := Z.max 3 _).
  assert (Hz : 3 <= z) by apply Z.le_max_l.
  assert (E1 : (pos1 <=? z) = true) by (apply Z.leb_le; lia).
  assert (E2 : (pos2 <=? z) = true) by (apply Z.leb_le; lia).
  now rewrite E1, E2.
Qed.

Lemma podium_is_top_clash_witness :
  match_importance 2 3 5 (1 # 2) = " Top clash (" ++ stage_of (1 # 2) ++ ")".
Proof.
  apply (podium_is_top_clash 2 3 5 (1 # 2)); vm_compute; discriminate.
Defined.

(** X2: for leagues below [2^40] teams the float computations of the
    classifier ([total_teams * 0.2], [round], [total_teams / 2]) lose
    nothing: the result is the classification computed in integers, with
    zone [max(3, (total_teams + 2) div 5)] and halves compared as
    [2 * pos] against [total_teams]. *)
Theorem classifier_is_exact (pos1 pos2 total_teams : Z) (progress : Q) :
  0 <= total_teams < 2 ^ 40 ->
  match_importance pos1 pos2 total_teams progress
  = " " ++ label_text (classify_exact pos1 pos2 total_teams)
      ++ " (" ++ stage_of progress ++ ")".
Proof. apply Classifier.match_importance_exact. Qed.

Lemma classifier_is_exact_witness :
  match_importance 17 7 20 (1 # 2)
  = " " ++ label_text (classify_exact 17 7 20)
      ++ " (" ++ stage_of (1 # 2) ++ ")".
Proof.
  apply (classifier_is_exact 17 7 20 (1 # 2)).
  split; [vm_compute; discriminate|vm_compute; reflexivity].
Defined.

Lemma small_league_label (pos1 pos2 n : Z) :
  0 <= n <= 6 -> classify_exact pos1 pos2 n <> ImportantForBottomTeam.
Proof.
  intros H. unfold classify_exact.
  assert (Z3 : Z.max 3 ((n + 2) / 5) = 3).
  { apply Z.max_l. apply Z.lt_succ_r. apply Z.div_lt_upper_bound; lia. }
  rewrite Z3.
  destruct (Z.leb_spec pos1 3); destruct (Z.leb_spec pos2 3);
    cbn [andb orb negb]; try discriminate;
    destruct (Z.ltb_spec (n - 3) pos1); destruct (Z.ltb_spec (n - 3) pos2);
    cbn [andb orb negb]; try discriminate;
    destruct (Z.ltb_spec n (2 * pos1)); destruct (Z.ltb_spec n (2 * pos2));
    cbn [andb orb negb]; try discriminate;
    destruct (Z.ltb_spec (2 * pos1) n); destruct (Z.ltb_spec (2 * pos2) n);
    cbn [andb orb negb]; try discriminate; lia.
Qed.

(** X3: in a league of at most six teams no fixture is ever labelled
    "Important for bottom team": a team in the upper half is then in the top
    zone, and the earlier checks win. *)
Theorem small_league_never_bottom (pos1 pos2 total_teams : Z) (progress : Q) :
  0 <= total_teams <= 6 ->
  match_importance pos1 pos2 total_teams progress
  <> " Important for bottom team (" ++ stage_of progress ++ ")".
Proof.
  intros H.
  rewrite Classifier.match_importance_exact by lia.
  pose proof (small_league_label pos1 pos2 total_teams H) as N.
  generalize (stage_of progress). intros s.
  destruct (classify_exact pos1 pos2 total_teams);
    cbn [label_text append]; try discriminate.
  congruence.
Qed.

Lemma small_league_never_bottom_witness :
  match_importance 6 2 6 (1 # 2)
  <> " Important for bottom team (" ++ stage_of (1 # 2) ++ ")".
Proof.
  apply (small_league_never_bottom 6 2 6 (1 # 2)).
  split; vm_compute; discriminate.
Defined.

End Zones.

(** * More on the team resolver *)

Module Resolution.

Lemma append_nil_r (s : string) : s ++ "" = s.
Proof. induction s as [|c s IH]; simpl; [reflexivity|now rewrite IH]. Qed.

Lemma append_assoc (a b c : string) : (a ++ b) ++ c = a ++ b ++ c.
Proof. induction a as [|x a IH]; simpl; [reflexivity|now rewrite IH]. Qed.

Lemma is_substring_refl (k : string) : is_substring k k.
Proof. exists "", "". simpl. now rewrite append_nil_r. Qed.

Lemma is_substring_trans (a b c : string) :
  is_substring a b -> is_substring b c -> is_substring a c.
Proof.
  intros [pre1 [post1 E1]] [pre2 [post2 E2]].
  exists (pre2 ++ pre1), (post1 ++ post2).
  rewrite E2, E1. now rewrite !append_assoc.
Qed.

Lemma first_match_contains (name : string) (ks : list string) (k : string) :
  first_match name ks = Some k -> contains name k = true.
Proof.
  induction ks as [|t rest IH]; simpl; [discriminate|].
  destruct (contains name t) eqn:C; [now intros [= <-]|exact IH].
Qed.

(** A key that was found for some query is found again when asked for
    itself. *)
Lemma first_match_stable (name : string) (ks : list string) (k : string) :
  first_match name ks = Some k -> first_match k ks = Some k.
Proof.
  intros H. pose proof (first_match_contains _ _ _ H) as Ck.
  apply Resolver.contains_spec in Ck.
  induction ks as [|t rest IH]; simpl in *; [discriminate|].
  destruct (contains name t) eqn:C.
  - injection H as ->.
    assert (R : contains k k = true)
      by (apply Resolver.contains_spec, is_substring_refl).
    now rewrite R.
  - destruct (contains k t) eqn:D; [|now apply IH].
    exfalso. apply Resolver.contains_spec in D.
    pose proof (is_substring_trans _ _ _ Ck D) as T.
    apply Resolver.contains_spec in T. congruence.
Qed.

(** X4: whatever [find_team] returns is a key of the table that contains
    the lower-cased query, and resolving that key again (a key is its own
    lower-cased form) returns the same key: no earlier key can contain it. *)
Theorem find_team_stable
    (lower : string -> string) (query : string) (standings : table)
    (k : string) :
  find_team lower query standings = Some k ->
  lower k = k ->
  In k (keys standings)
  /\ is_substring (lower query) k
  /\ find_team lower k standings = Some k.
Proof.
  unfold find_team. intros H L. split; [|split].
  - exact (Handler.first_match_In _ _ _ H).
  - apply Resolver.contains_spec. exact (first_match_contains _ _ _ H).
  - rewrite L. exact (first_match_stable _ _ _ H).
Qed.

Lemma find_team_stable_witness :
  find_team ascii_lower "ARSENAL" sample_table = Some "arsenal fc"
  /\ ascii_lower "arsenal fc" = "arsenal fc"
  /\ In "arsenal fc" (keys sample_table)
  /\ is_substring (ascii_lower "ARSENAL") "arsenal fc"
  /\ find_team ascii_lower "arsenal fc" sample_table = Some "arsenal fc".
Proof.
  split; [reflexivity|]. split; [reflexivity|].
  exact (find_team_stable ascii_lower "ARSENAL" sample_table "arsenal fc"
           eq_refl eq_refl).
Defined.

End Resolution.

(** * More on the standings fetcher *)

Module Fetching.

Local Open Scope Z_scope.

Lemma ok_false (sc : Z) : ok sc = false <-> 400 <= sc < 600.
Proof.
  unfold ok. rewrite negb_false_iff, andb_true_iff, Z.leb_le, Z.ltb_lt.
  tauto.
Qed.

Lemma ok_true (sc : Z) : ok sc = true <-> ~ 400 <= sc < 600.
Proof.
  rewrite <- ok_false. destruct (ok sc); split; congruence.
Qed.

Lemma as_int_err (v : json) (e : exn) : as_int v = Err e -> e = TypeError.
Proof. destruct v; simpl; congruence. Qed.

Lemma sum_played_app (good rest : list json) (vs : list Z) (acc : Z) :
  Forall2 row_played good vs ->
  sum_played (good ++ rest) acc = sum_played rest (acc + total vs).
Proof.
  intros H. revert acc. induction H as [|row v good vs [j [G A]] _ IH];
    intros acc; simpl.
  - f_equal. lia.
  - rewrite G. simpl. rewrite A. simpl. rewrite IH. f_equal. lia.
Qed.

Lemma In_dict_set (x : string * entry) (k : string) (v : entry) (d : table) :
  In x (dict_set k v d) -> x = (k, v) \/ In x d.
Proof.
  induction d as [|[k0 v0] d IH]; simpl.
  - intros [<-|[]]. now left.
  - destruct (String.eqb k k0); simpl.
    + intros [<-|H]; [now left|right; now right].
    + intros [<-|H]; [right; now left|].
      destruct (IH H) as [->|I]; [now left|right; now right].
Qed.

Lemma In_insert_all (x : string * entry) (kes : list (string * entry))
    (acc : table) :
  In x (insert_all kes acc) -> In x kes \/ In x acc.
Proof.
  revert acc. induction kes as [|[k v] kes IH]; intros acc; simpl.
  - now right.
  - intros H. destruct (IH _ H) as [I|I]; [left; now right|].
    destruct (In_dict_set _ _ _ _ I) as [->|J]; [left; now left|now right].
Qed.

Lemma played_numeric (lower : string -> string) (rows : list json)
    (kes : list (string * entry)) (vs : list Z) :
  Forall2 (row_entry lower) rows kes ->
  Forall2 row_played rows vs ->
  Forall (fun ke => exists z, as_int (played (snd ke)) = Ok z) kes.
Proof.
  intros F. revert vs.
  induction F as [|row ke rows kes [t [nm [_ [_ [_ [_ [G _]]]]]]] _ IH];
    intros vs P; inversion P as [|? v ? vs' [j [G' A]] P']; subst.
  - constructor.
  - constructor; [|now apply (IH vs')].
    exists v. rewrite G in G'. injection G' as <-. exact A.
Qed.

Section Fetch.

Variable lower : string -> string.
Variable API_TOKEN : option string.
Variable requests_get : string -> option string -> http_result.

(** X5: a request that cannot be made, an upstream status in the 4xx or 5xx
    range (whatever the body), and a body that is not JSON are each answered
    with status 400; the error is the library's own in the first and third
    case and the text "API request failed: <status> - <text>" in the second. *)
Theorem transport_failures (league team1 team2 : string) :
  (forall msg,
     requests_get (standings_url league) API_TOKEN = ConnectionFailed msg ->
     get_match_info lower API_TOKEN requests_get league team1 team2
     = Ok {| status := 400;
             body_content := ErrorContent (RequestException msg) |})
  /\ (forall sc text body,
        requests_get (standings_url league) API_TOKEN
          = Response sc text body ->
        400 <= sc < 600 ->
        get_match_info lower API_TOKEN requests_get league team1 team2
        = Ok {| status := 400;
                body_content :=
                  ErrorContent
                    (Exception ("API request failed: " ++ str_int sc
                                  ++ " - " ++ text)) |})
  /\ (forall sc text e,
        requests_get (standings_url league) API_TOKEN
          = Response sc text (Err e) ->
        ~ 400 <= sc < 600 ->
        get_match_info lower API_TOKEN requests_get league team1 team2
        = Ok {| status := 400; body_content := ErrorContent e |}).
Proof.
  split; [|split].
  - intros msg R. apply Handler.fetch_failure.
    now apply Handler.connection_failure.
  - intros sc text body R K. apply Handler.fetch_failure.
    apply Handler.upstream_status_failure with (body := body); [exact R|].
    now apply ok_false.
  - intros sc text e R K. apply Handler.fetch_failure.
    apply Handler.malformed_body with (sc := sc) (text := text); [exact R|].
    now apply ok_true.
Qed.

(** X6: a decoded document of the wrong shape is answered with status 400
    and the error of the first failing subscript: [KeyError] for an object
    without "standings" or a group without "table", [IndexError] for an empty
    "standings" list, [TypeError] for a document that is a list. *)
Theorem shape_errors (league team1 team2 : string) (sc : Z) (text : string)
    (data : json) :
  requests_get (standings_url league) API_TOKEN = Response sc text (Ok data) ->
  ok sc = true ->
  (forall members,
     data = JObj members -> assoc "standings" members = None ->
     get_match_info lower API_TOKEN requests_get league team1 team2
     = Ok {| status := 400;
             body_content := ErrorContent (KeyError "standings") |})
  /\ (forall members,
        data = JObj members -> assoc "standings" members = Some (JArr []) ->
        get_match_info lower API_TOKEN requests_get league team1 team2
        = Ok {| status := 400; body_content := ErrorContent IndexError |})
  /\ (forall members group rest,
        data = JObj members ->
        assoc "standings" members = Some (JArr (JObj group :: rest)) ->
        assoc "table" group = None ->
        get_match_info lower API_TOKEN requests_get league team1 team2
        = Ok {| status := 400;
                body_content := ErrorContent (KeyError "table") |})
  /\ (forall items,
        data = JArr items ->
        get_match_info lower API_TOKEN requests_get league team1 team2
        = Ok {| status := 400; body_content := ErrorContent TypeError |}).
Proof.
  intros R K.
  assert (G : get_standings lower API_TOKEN requests_get league
              = (s <- getitem data "standings" ;;
                 g <- getitem_0 s ;;
                 standings <- getitem g "table" ;;
                 total_teams <- py_len standings ;;
                 rows <- py_iter standings ;;
                 total_played <- sum_played rows 0 ;;
                 avg_played <- py_truediv total_played total_teams ;;
                 progress <- py_float_div_int avg_played
                               ((total_teams - 1) * 2) ;;
                 rows' <- py_iter standings ;;
                 tbl <- build_table lower rows' [] ;;
                 Ok (tbl, total_teams, progress))).
  { unfold get_standings. fold (standings_url league). now rewrite R, K. }
  split; [|split; [|split]].
  - intros members -> A. apply Handler.fetch_failure. rewrite G.
    cbn [getitem]. now rewrite A.
  - intros members -> A. apply Handler.fetch_failure. rewrite G.
    cbn [getitem]. now rewrite A.
  - intros members group rest -> A T. apply Handler.fetch_failure.
    rewrite G. cbn [getitem]. rewrite A. cbn [bind getitem_0 getitem].
    now rewrite T.
  - intros items ->. apply Handler.fetch_failure. now rewrite G.
Qed.

(** X7: an empty upstream table is answered with status 400: the average
    of no games divides by zero. *)
Theorem empty_table (league team1 team2 : string) :
  upstream_rows API_TOKEN requests_get league [] ->
  get_match_info lower API_TOKEN requests_get league team1 team2
  = Ok {| status := 400; body_content := ErrorContent ZeroDivisionError |}.
Proof.
  intros U. apply Handler.fetch_failure.
  now rewrite (Standings.get_standings_rows _ _ _ _ _ U).
Qed.

(** X8: the first row whose "playedGames" is missing or not a number
    decides the answer: status 400 with the error of that row ([KeyError]
    or [TypeError]), whatever follows it. *)
Theorem first_bad_games_row (league team1 team2 : string)
    (good : list json) (vs : list Z) (bad : json) (rest : list json)
    (e : exn) :
  upstream_rows API_TOKEN requests_get league (good ++ bad :: rest) ->
  Forall2 row_played good vs ->
  (v <- getitem bad "playedGames" ;; as_int v) = Err e ->
  (e = KeyError "playedGames" \/ e = TypeError)
  /\ get_match_info lower API_TOKEN requests_get league team1 team2
     = Ok {| status := 400; body_content := ErrorContent e |}.
Proof.
  intros U P B. split.
  - destruct bad as [| | | | |members]; simpl in B;
      try (injection B as <-; now right).
    destruct (assoc "playedGames" members) as [j|]; simpl in B.
    + right. now apply as_int_err with (v := j).
    + injection B as <-. now left.
  - apply Handler.fetch_failure.
    rewrite (Standings.get_standings_rows _ _ _ _ _ U). cbv zeta.
    rewrite (sum_played_app good (bad :: rest) vs 0 P). cbn [sum_played].
    destruct (getitem bad "playedGames") as [j|e'] eqn:G; simpl in B |- *.
    + now rewrite B.
    + now injection B as <-.
Qed.

(** X9: what a successful [get_standings] guarantees: the upstream table
    had at least two rows, each with a string team name, a position, points
    and a numeric "playedGames"; the returned table is not empty, its keys
    are pairwise distinct and are exactly the lower-cased team names, every
    stored "played" value is a number, and the progress is the rounded
    quotient of the games played. *)
Theorem successful_fetch (code : string) (tbl : table) (n : Z) (p : Q) :
  get_standings lower API_TOKEN requests_get code = Ok (tbl, n, p) ->
  exists rows kes vs,
    upstream_rows API_TOKEN requests_get code rows
    /\ Forall2 (row_entry lower) rows kes
    /\ Forall2 row_played rows vs
    /\ n = Z.of_nat (List.length rows)
    /\ 2 <= n
    /\ tbl <> []
    /\ NoDup (keys tbl)
    /\ (forall k, In k (keys tbl) <-> In k (map fst kes))
    /\ Forall (fun ke => exists z, as_int (played (snd ke)) = Ok z) tbl
    /\ p = fdiv (int_truediv (total vs) n) (float_of_int ((n - 1) * 2)).
Proof.
  intros H.
  destruct (Standings.get_standings_inv _ _ _ _ _ _ _ H)
    as [rows [t [avg [U [N [S [D [F B]]]]]]]].
  destruct (Standings.build_table_inv lower API_TOKEN requests_get _ _ _ B)
    as [kes [E T]].
  destruct (Standings.sum_played_inv _ _ _ S) as [vs [P St]].
  simpl in St. subst t.
  destruct (Standings.py_truediv_inv _ _ _ D) as [N0 ->].
  destruct (Standings.py_float_div_int_inv _ _ _ F) as [M0 ->].
  assert (N2 : 2 <= n).
  { destruct (Z.eq_dec n 1) as [->|N1]; [|lia].
    exfalso. apply M0. reflexivity. }
  assert (K : forall k, In k (keys tbl) <-> In k (map fst kes)).
  { intros k. subst tbl. rewrite Dict.In_keys_insert_all. simpl. tauto. }
  exists rows, kes, vs.
  repeat (split; [assumption|]).
  split; [|split; [|split; [|split]]].
  - intros C. destruct kes as [|ke kes].
    + inversion E; subst. simpl in N2. lia.
    + specialize (K (fst ke)). rewrite C in K. simpl in K. tauto.
  - subst tbl. apply Dict.NoDup_insert_all. constructor.
  - exact K.
  - pose proof (played_numeric lower rows kes vs E P) as Q.
    rewrite Forall_forall in Q |- *. intros ke I. apply Q.
    subst tbl. destruct (In_insert_all _ _ _ I) as [J|[]]. exact J.
  - reflexivity.
Qed.

End Fetch.

Lemma transport_failures_witness :
  get_match_info ascii_lower None unreachable "PL" "Arsenal" "Chelsea"
  = Ok {| status := 400;
          body_content :=
            ErrorContent (RequestException "Max retries exceeded") |}
  /\ get_match_info ascii_lower None unavailable "PL" "Arsenal" "Chelsea"
     = Ok {| status := 400;
             body_content :=
               ErrorContent
                 (Exception "API request failed: 503 - Service Unavailable") |}
  /\ get_match_info ascii_lower None not_json "PL" "Arsenal" "Chelsea"
     = Ok {| status := 400;
             body_content :=
               ErrorContent (JSONDecodeError "Expecting value") |}.
Proof.
  destruct (transport_failures ascii_lower None unreachable
              "PL" "Arsenal" "Chelsea") as [A _].
  destruct (transport_failures ascii_lower None unavailable
              "PL" "Arsenal" "Chelsea") as [_ [B _]].
  destruct (transport_failures ascii_lower None not_json
              "PL" "Arsenal" "Chelsea") as [_ [_ C]].
  split; [|split].
  - apply (A "Max retries exceeded"). reflexivity.
  - apply (B 503 "Service Unavailable" _ eq_refl).
    lia.
  - apply (C 200 "<html></html>" _ eq_refl).
    lia.
Defined.

Lemma shape_errors_witness :
  get_match_info ascii_lower None (serve_doc (JObj [("message", JStr "hi")]))
    "PL" "Arsenal" "Chelsea"
  = Ok {| status := 400;
          body_content := ErrorContent (KeyError "standings") |}
  /\ get_match_info ascii_lower None (serve_doc (JObj [("standings", JArr [])]))
       "PL" "Arsenal" "Chelsea"
     = Ok {| status := 400; body_content := ErrorContent IndexError |}
  /\ get_match_info ascii_lower None
       (serve_doc (JObj [("standings", JArr [JObj [("type", JStr "TOTAL")]])]))
       "PL" "Arsenal" "Chelsea"
     = Ok {| status := 400; body_content := ErrorContent (KeyError "table") |}
  /\ get_match_info ascii_lower None (serve_doc (JArr [])) "PL" "Arsenal"
       "Chelsea"
     = Ok {| status := 400; body_content := ErrorContent TypeError |}.
Proof.
  split; [|split; [|split]].
  - destruct (shape_errors ascii_lower None
                (serve_doc (JObj [("message", JStr "hi")]))
                "PL" "Arsenal" "Chelsea" 200 "" _ eq_refl eq_refl)
      as [H _].
    apply (H _ eq_refl). reflexivity.
  - destruct (shape_errors ascii_lower None
                (serve_doc (JObj [("standings", JArr [])]))
                "PL" "Arsenal" "Chelsea" 200 "" _ eq_refl eq_refl)
      as [_ [H _]].
    apply (H _ eq_refl). reflexivity.
  - destruct (shape_errors ascii_lower None
                (serve_doc
                   (JObj [("standings", JArr [JObj [("type", JStr "TOTAL")]])]))
                "PL" "Arsenal" "Chelsea" 200 "" _ eq_refl eq_refl)
      as [_ [_ [H _]]].
    apply (H _ _ _ eq_refl eq_refl). reflexivity.
  - destruct (shape_errors ascii_lower None (serve_doc (JArr []))
                "PL" "Arsenal" "Chelsea" 200 "" _ eq_refl eq_refl)
      as [_ [_ [_ H]]].
    apply (H _ eq_refl).
Defined.

Lemma empty_table_witness :
  upstream_rows None (serve []) "PL" []
  /\ get_match_info ascii_lower None (serve []) "PL" "Arsenal" "Chelsea"
     = Ok {| status := 400; body_content := ErrorContent ZeroDivisionError |}.
Proof.
  pose proof (Standings.upstream_rows_serve []) as U.
  split; [exact U|].
  exact (empty_table ascii_lower None (serve []) "PL" "Arsenal" "Chelsea" U).
Defined.

Lemma first_bad_games_row_witness :
  upstream_rows None (serve bad_games_row) "PL" bad_games_row
  /\ get_match_info ascii_lower None (serve bad_games_row)
       "PL" "Arsenal" "Chelsea"
     = Ok {| status := 400; body_content := ErrorContent TypeError |}.
Proof.
  pose proof (Standings.upstream_rows_serve bad_games_row) as U.
  split; [exact U|].
  apply (first_bad_games_row ascii_lower None (serve bad_games_row)
           "PL" "Arsenal" "Chelsea"
           [team_row "Arsenal" (JInt 1) (JInt 1) (JInt 3)] [1]
           (team_row "Chelsea" (JInt 2) (JStr "one") (JInt 0)) [] TypeError).
  - exact U.
  - repeat constructor. eexists. split; reflexivity.
  - reflexivity.
Defined.

Lemma successful_fetch_witness :
  get_standings ascii_lower None (serve two_teams) "PL"
    = Ok (two_teams_table, 2, two_teams_progress)
  /\ two_teams_table <> [] /\ NoDup (keys two_teams_table).
Proof.
  assert (H : get_standings ascii_lower None (serve two_teams) "PL"
              = Ok (two_teams_table, 2, two_teams_progress))
    by (vm_compute; reflexivity).
  split; [exact H|].
  destruct (successful_fetch ascii_lower None (serve two_teams) "PL"
              two_teams_table 2 two_teams_progress H)
    as [rows [kes [vs [_ [_ [_ [_ [_ [T [D _]]]]]]]]]].
  split; [exact T|exact D].
Defined.

End Fetching.

(** * More on the request handler *)

Module Responses.

Local Open Scope Z_scope.

Lemma importance_swap (pos1 pos2 total_teams : Z) (progress : Q) :
  match_importance pos2 pos1 total_teams progress
  = match_importance pos1 pos2 total_teams progress.
Proof.
  unfold match_importance. set (z := Z.max 3 _).
  destruct (pos1 <=? z), (pos2 <=? z),
           (pos1 >? total_teams - z), (pos2 >? total_teams - z),
           (gt_half pos1 total_teams), (gt_half pos2 total_teams),
           (lt_half pos1 total_teams), (lt_half pos2 total_teams);
    reflexivity.
Qed.

Lemma falsy_some (k : string) : falsy (Some k) = false <-> k <> "".
Proof. destruct k; simpl; split; congruence. Qed.

Section Handle.

Variable lower : string -> string.
Variable API_TOKEN : option string.
Variable requests_get : string -> option string -> http_result.

Lemma some_missing (league team1 team2 : string) (tbl : table) (n : Z)
    (p : Q) :
  get_standings lower API_TOKEN requests_get league = Ok (tbl, n, p) ->
  falsy (find_team lower team1 tbl) || falsy (find_team lower team2 tbl)
  = true ->
  get_match_info lower API_TOKEN requests_get league team1 team2
  = Ok {| status := 404;
          body_content :=
            NotFoundContent "One or both teams were not found." (keys tbl) |}.
Proof.
  intros G H. unfold get_match_info. now rewrite G, H.
Qed.

(** X10: every way a request can end.  The handler answers 400 exactly when
    [get_standings] raised (with that error), 404 with all keys of the
    table when a name is unresolved or resolved to the empty key, and 200
    with, for each team, the key found and the position and points stored
    under it; the only exception that leaves the handler is the [TypeError]
    of a stored position that is not a number.  No other status and no other
    exception occurs. *)
Theorem handler_outcomes (league team1 team2 : string) :
  match get_match_info lower API_TOKEN requests_get league team1 team2 with
  | Ok r =>
      (status r = 400
       /\ exists e,
            get_standings lower API_TOKEN requests_get league = Err e
            /\ body_content r = ErrorContent e)
      \/ (status r = 404
          /\ exists tbl n p,
               get_standings lower API_TOKEN requests_get league
                 = Ok (tbl, n, p)
               /\ falsy (find_team lower team1 tbl)
                  || falsy (find_team lower team2 tbl) = true
               /\ body_content r
                  = NotFoundContent "One or both teams were not found."
                                    (keys tbl))
      \/ (status r = 200
          /\ exists tbl n p k1 k2 e1 e2 p1 p2,
               get_standings lower API_TOKEN requests_get league
                 = Ok (tbl, n, p)
               /\ find_team lower team1 tbl = Some k1 /\ k1 <> ""
               /\ find_team lower team2 tbl = Some k2 /\ k2 <> ""
               /\ assoc k1 tbl = Some e1 /\ assoc k2 tbl = Some e2
               /\ as_int (position e1) = Ok p1
               /\ as_int (position e2) = Ok p2
               /\ body_content r
                  = MatchContent {|
                      league_code := league;
                      team1_info := {| name := k1;
                                       team_position := position e1;
                                       team_points := points e1 |};
                      team2_info := {| name := k2;
                                       team_position := position e2;
                                       team_points := points e2 |};
                      importance := match_importance p1 p2 n p;
                      season_progress :=
                        format_1f (fmul p (float_of_int 100)) ++ "%" |})
  | Err e =>
      e = TypeError
      /\ exists tbl n p k1 k2 e1 e2,
           get_standings lower API_TOKEN requests_get league = Ok (tbl, n, p)
           /\ find_team lower team1 tbl = Some k1
           /\ find_team lower team2 tbl = Some k2
           /\ assoc k1 tbl = Some e1 /\ assoc k2 tbl = Some e2
           /\ (as_int (position e1) = Err TypeError
               \/ as_int (position e2) = Err TypeError)
  end.
Proof.
  destruct (get_standings lower API_TOKEN requests_get league)
    as [[[tbl n] p]|e] eqn:G.
  - destruct (falsy (find_team lower team1 tbl)
              || falsy (find_team lower team2 tbl)) eqn:M.
    + rewrite (some_missing league team1 team2 tbl n p G M).
      right. left. split; [reflexivity|]. exists tbl, n, p. auto.
    + apply orb_false_iff in M. destruct M as [M1 M2].
      destruct (find_team lower team1 tbl) as [k1|] eqn:F1; [|discriminate].
      destruct (find_team lower team2 tbl) as [k2|] eqn:F2; [|discriminate].
      apply falsy_some in M1. apply falsy_some in M2.
      destruct (Handler.found lower API_TOKEN requests_get league team1 team2
                  tbl n p k1 k2 G F1 M1 F2 M2) as [e1 [e2 [A1 [A2 Eq]]]].
      rewrite Eq.
      destruct (as_int (position e1)) as [p1|x1] eqn:I1.
      * destruct (as_int (position e2)) as [p2|x2] eqn:I2; cbn [bind].
        -- right. right. split; [reflexivity|].
           exists tbl, n, p, k1, k2, e1, e2, p1, p2. simpl. tauto.
        -- pose proof (Fetching.as_int_err _ _ I2) as ->.
           split; [reflexivity|]. exists tbl, n, p, k1, k2, e1, e2. tauto.
      * cbn [bind]. pose proof (Fetching.as_int_err _ _ I1) as ->.
        split; [reflexivity|]. exists tbl, n, p, k1, k2, e1, e2. tauto.
  - rewrite (Handler.fetch_failure lower API_TOKEN requests_get
               league team1 team2 e G).
    left. split; [reflexivity|]. exists e. auto.
Qed.

(** X11: asking for the two teams in the other order gives the same answer
    with the two teams exchanged: same status, same error or same list of
    keys, same importance and season progress, and the same exception when
    one escapes. *)
Theorem swapped_request (league team1 team2 : string) :
  get_match_info lower API_TOKEN requests_get league team2 team1
  = result_map swap_teams
      (get_match_info lower API_TOKEN requests_get league team1 team2).
Proof.
  destruct (get_standings lower API_TOKEN requests_get league)
    as [[[tbl n] p]|e] eqn:G.
  - destruct (falsy (find_team lower team1 tbl)
              || falsy (find_team lower team2 tbl)) eqn:M.
    + rewrite (some_missing league team1 team2 tbl n p G M).
      rewrite orb_comm in M.
      now rewrite (some_missing league team2 team1 tbl n p G M).
    + apply orb_false_iff in M. destruct M as [M1 M2].
      destruct (find_team lower team1 tbl) as [k1|] eqn:F1; [|discriminate].
      destruct (find_team lower team2 tbl) as [k2|] eqn:F2; [|discriminate].
      apply falsy_some in M1. apply falsy_some in M2.
      destruct (Handler.found lower API_TOKEN requests_get league team1 team2
                  tbl n p k1 k2 G F1 M1 F2 M2) as [e1 [e2 [A1 [A2 Eq]]]].
      destruct (Handler.found lower API_TOKEN requests_get league team2 team1
                  tbl n p k2 k1 G F2 M2 F1 M1) as [e2' [e1' [B2 [B1 Eq']]]].
      rewrite A1 in B1. injection B1 as <-.
      rewrite A2 in B2. injection B2 as <-.
      rewrite Eq, Eq'.
      destruct (as_int (position e1)) as [p1|x1] eqn:I1;
        destruct (as_int (position e2)) as [p2|x2] eqn:I2; cbn [bind result_map].
      * rewrite importance_swap. reflexivity.
      * reflexivity.
      * pose proof (Fetching.as_int_err _ _ I1) as ->. reflexivity.
      * pose proof (Fetching.as_int_err _ _ I1) as ->.
        pose proof (Fetching.as_int_err _ _ I2) as ->. reflexivity.
  - now rewrite !(Handler.fetch_failure lower API_TOKEN requests_get
                    league _ _ e G).
Qed.

End Handle.

(** The stage and the printed percentage depend on the value of the
    progress only. *)

Lemma Qltb_Qeq (x x' y y' : Q) :
  (x == x')%Q -> (y == y')%Q -> Qltb x y = Qltb x' y'.
Proof.
  intros E1 E2. unfold Qltb. f_equal. now apply Qleb_comp.
Qed.

Lemma stage_of_Qeq (p q : Q) : (p == q)%Q -> stage_of p = stage_of q.
Proof.
  intros E. unfold stage_of.
  now rewrite (Qltb_Qeq p q lit_0_33 lit_0_33 E (Qeq_refl _)),
              (Qltb_Qeq p q lit_0_66 lit_0_66 E (Qeq_refl _)).
Qed.

Lemma overflows_Qeq (x y : Q) : (x == y)%Q -> overflows x = overflows y.
Proof.
  intros E. unfold overflows. apply Qleb_comp; [reflexivity|].
  now rewrite E.
Qed.

Lemma format_1f_Qeq (x y : Q) : (x == y)%Q -> format_1f x = format_1f y.
Proof.
  intros E. unfold format_1f.
  rewrite (Qltb_Qeq x y 0 0 E (Qeq_refl _)), (overflows_Qeq x y E).
  rewrite (FloatFacts.py_round_Qeq (x * 10) (y * 10)); [reflexivity|].
  now rewrite E.
Qed.

Lemma percent_Qeq (p q : Q) :
  (p == q)%Q ->
  format_1f (fmul p (float_of_int 100)) = format_1f (fmul q (float_of_int 100)).
Proof.
  intros E. apply format_1f_Qeq. unfold fmul. apply FloatFacts.RN_Qeq.
  now rewrite E.
Qed.

Lemma all_played_total (g : Z) (rows : list json) :
  all_played g rows ->
  exists vs, Forall2 row_played rows vs
             /\ total vs = g * Z.of_nat (List.length rows).
Proof.
  unfold all_played. induction rows as [|row rows IH]; intros A.
  - exists []. split; [constructor|simpl; lia].
  - inversion A as [|? ? R A']; subst.
    destruct (IH A') as [vs [F T]].
    exists (g :: vs). split; [now constructor|].
    simpl total. rewrite T. simpl List.length. lia.
Qed.

(** When every team has played [g] games the average is exact, and the
    progress is [g / ((n - 1) * 2)] rounded once. *)
Lemma uniform_progress (g n : Z) :
  2 <= n < 2 ^ 50 -> Z.abs g < 2 ^ 50 ->
  (fdiv (int_truediv (g * n) n) (float_of_int ((n - 1) * 2))
   == RN (inject_Z g / inject_Z ((n - 1) * 2)))%Q.
Proof.
  intros Hn Hg. unfold fdiv. apply FloatFacts.RN_Qeq.
  assert (A : (int_truediv (g * n) n == inject_Z g)%Q).
  { unfold int_truediv.
    assert (E : (inject_Z (g * n) / inject_Z n == inject_Z g)%Q).
    { rewrite inject_Z_mult. field.
      change 0%Q with (inject_Z 0). rewrite inject_Z_injective. lia. }
    rewrite (FloatFacts.RN_Qeq _ _ E).
    apply (FloatFacts.float_of_int_exact g). lia. }
  assert (B : (float_of_int ((n - 1) * 2) == inject_Z ((n - 1) * 2))%Q).
  { apply FloatFacts.float_of_int_exact.
    assert (2 ^ 53 = 2 ^ 50 * 8) by reflexivity. lia. }
  now rewrite A, B.
Qed.

(** X12: the two ends of a season.  On a well-formed table of [n] teams
    ([2 <= n < 2^50]): when no team has played yet the progress is 0, the
    stage "early season" and the percentage "0.0%"; when every team has
    played its [(n - 1) * 2] games the progress is exactly 1, the stage "end
    of the season" and the percentage "100.0%". *)
Theorem season_endpoints
    (lower : string -> string) (API_TOKEN : option string)
    (requests_get : string -> option string -> http_result)
    (code : string) (rows : list json) (kes : list (string * entry))
    (n : Z) :
  upstream_rows API_TOKEN requests_get code rows ->
  Forall2 (row_entry lower) rows kes ->
  n = Z.of_nat (List.length rows) ->
  2 <= n < 2 ^ 50 ->
  (all_played 0 rows ->
   exists p,
     get_standings lower API_TOKEN requests_get code
       = Ok (insert_all kes [], n, p)
     /\ (p == 0)%Q
     /\ stage_of p = "early season"
     /\ format_1f (fmul p (float_of_int 100)) ++ "%" = "0.0%")
  /\ (all_played ((n - 1) * 2) rows ->
      exists p,
        get_standings lower API_TOKEN requests_get code
          = Ok (insert_all kes [], n, p)
        /\ (p == 1)%Q
        /\ stage_of p = "end of the season"
        /\ format_1f (fmul p (float_of_int 100)) ++ "%" = "100.0%").
Proof.
  intros U F N Hn.
  assert (S : forall g, Z.abs g < 2 ^ 51 -> all_played g rows ->
            get_standings lower API_TOKEN requests_get code
            = Ok (insert_all kes [], n,
                  fdiv (int_truediv (g * n) n)
                       (float_of_int ((n - 1) * 2)))).
  { intros g Hg A. destruct (all_played_total g rows A) as [vs [P T]].
    rewrite (Standings.get_standings_rows _ _ _ _ _ U). cbv zeta.
    rewrite (Standings.sum_played_ok rows vs 0 P). rewrite <- N, T, <- N.
    cbn [bind Z.add].
    destruct (Standings.progress_defined (g * n) n) as [D1 D2].
    - lia.
    - assert (2 ^ 50 <= 2 ^ 1022) by (apply Z.pow_le_mono_r; lia). lia.
    - assert (2 ^ 51 * 2 ^ 50 <= 2 ^ 1023).
      { rewrite <- Z.pow_add_r by lia. apply Z.pow_le_mono_r; lia. }
      assert (Z.abs (g * n) <= 2 ^ 51 * 2 ^ 50); [|lia].
      rewrite Z.abs_mul, (Z.abs_eq n) by lia.
      apply Z.mul_le_mono_nonneg; lia.
    - rewrite D1. cbn [bind]. rewrite D2. cbn [bind].
      now rewrite (Standings.build_table_ok lower rows kes [] F). }
  split.
  - intros A. eexists. split; [apply (S 0 ltac:(reflexivity) A)|].
    assert (E : (fdiv (int_truediv (0 * n) n) (float_of_int ((n - 1) * 2))
                 == 0)%Q).
    { rewrite uniform_progress by (try exact Hn; reflexivity).
      assert (Z0 : (inject_Z 0 / inject_Z ((n - 1) * 2) == 0)%Q)
        by (unfold Qdiv; apply Qmult_0_l).
      rewrite (FloatFacts.RN_Qeq _ _ Z0). reflexivity. }
    split; [exact E|]. split.
    + rewrite (stage_of_Qeq _ 0 E). vm_compute. reflexivity.
    + rewrite (percent_Qeq _ 0 E). vm_compute. reflexivity.
  - intros A.
    assert (Hm : Z.abs ((n - 1) * 2) < 2 ^ 51).
    { assert (2 ^ 51 = 2 ^ 50 * 2) by reflexivity. lia. }
    eexists. split; [apply (S ((n - 1) * 2) Hm A)|].
    assert (V : (RN (inject_Z ((n - 1) * 2) / inject_Z ((n - 1) * 2)) == 1)%Q).
    { rewrite <- FloatFacts.RN_1. apply FloatFacts.RN_Qeq. field.
      change 0%Q with (inject_Z 0). rewrite inject_Z_injective. lia. }
    assert (E : (fdiv (int_truediv ((n - 1) * 2 * n) n)
                      (float_of_int ((n - 1) * 2)) == 1)%Q).
    { unfold fdiv. rewrite <- V. apply FloatFacts.RN_Qeq.
      assert (A1 : (int_truediv ((n - 1) * 2 * n) n
                    == inject_Z ((n - 1) * 2))%Q).
      { unfold int_truediv.
        assert (E0 : (inject_Z ((n - 1) * 2 * n) / inject_Z n
                      == inject_Z ((n - 1) * 2))%Q).
        { rewrite (inject_Z_mult ((n - 1) * 2) n). field.
          change 0%Q with (inject_Z 0). rewrite inject_Z_injective. lia. }
        rewrite (FloatFacts.RN_Qeq _ _ E0).
        apply FloatFacts.float_of_int_exact.
        assert (2 ^ 53 = 2 ^ 50 * 8) by reflexivity. lia. }
      assert (B1 : (float_of_int ((n - 1) * 2) == inject_Z ((n - 1) * 2))%Q).
      { apply FloatFacts.float_of_int_exact.
        assert (2 ^ 53 = 2 ^ 50 * 8) by reflexivity. lia. }
      now rewrite A1, B1. }
    split; [exact E|]. split.
    + rewrite (stage_of_Qeq _ 1 E). vm_compute. reflexivity.
    + rewrite (percent_Qeq _ 1 E). vm_compute. reflexivity.
Qed.

Lemma season_endpoints_witness :
  upstream_rows None (serve finished_two) "PL" finished_two
  /\ Forall2 (row_entry ascii_lower) finished_two finished_two_table
  /\ all_played 2 finished_two
  /\ exists p,
       get_standings ascii_lower None (serve finished_two) "PL"
         = Ok (insert_all finished_two_table [], 2, p)
       /\ (p == 1)%Q
       /\ stage_of p = "end of the season"
       /\ format_1f (fmul p (float_of_int 100)) ++ "%" = "100.0%".
Proof.
  pose proof (Standings.upstream_rows_serve finished_two) as U.
  assert (F : Forall2 (row_entry ascii_lower) finished_two finished_two_table).
  { repeat constructor; eexists; eexists; repeat split; reflexivity. }
  assert (A : all_played 2 finished_two).
  { repeat constructor; eexists; split; reflexivity. }
  split; [exact U|]. split; [exact F|]. split; [exact A|].
  destruct (season_endpoints ascii_lower None (serve finished_two) "PL"
              finished_two finished_two_table 2 U F eq_refl) as [_ H].
  - split; [vm_compute; discriminate|vm_compute; reflexivity].
  - exact (H A).
Defined.

End Responses.
